(** * Tax-form page segmentation and scoring: a shallow embedding

    This development embeds the core of [parse_tax_forms.py] and
    [evaluate.py] and proves the properties their specification states:
    first-match dispatch over the pattern registry, the stitching of a
    label stream into page-range segments, exact-match set scoring and
    the micro-averaged corpus metrics.

    Conventions of the embedding:
    - Python [int] is [Z]; Python [float] is an IEEE 754 binary64 value,
      modelled by [spec_float] with the operations of [SpecFloat] at
      [prec = 53], [emax = 1024];
    - a page is represented by the text PyMuPDF extracts from the clip
      rectangle [(0, 0, 150, 70)], a [string] of 8-bit code points;
    - [print] is modelled by a log of the lines written. *)

From Stdlib Require Import ZArith String Ascii List Lia Bool.
From Stdlib Require Import Floats.SpecFloat.
From stdpp Require Import base list strings pretty gmap sets.

Open Scope string_scope.
Open Scope list_scope.
Open Scope Z_scope.

Set Warnings "-clear-no-such-hyp".

(* ===================================================================== *)
(** * Part 1: the regular expressions of the pattern registry            *)
(* ===================================================================== *)

Module Re.

(** The registry only uses three constructs: a literal character (all
    patterns are compiled with [re.IGNORECASE]), [\s+] and [\b]. *)
Inductive atom : Type :=
| Lit (c : ascii)
| Spaces
| WordBoundary.

Definition regex : Type := list atom.

Definition code (c : ascii) : Z := Z.of_N (N_of_ascii c).

Definition between (lo hi x : Z) : bool := (lo <=? x) && (x <=? hi).

(** [str.lower] on the code points below 256: [A-Z] and the accented
    capitals [U+00C0 .. U+00DE] except the multiplication sign. *)
Definition lower (c : ascii) : Z :=
  let n := code c in
  if between 65 90 n || (between 192 222 n && negb (n =? 215))
  then n + 32 else n.

(** A literal of an [IGNORECASE] pattern matches a character with the
    same lower-case form. *)
Definition lit_matches (p c : ascii) : bool := lower p =? lower c.

(** [\s] on [str] patterns: the code points for which [str.isspace]
    holds, below 256. *)
Definition is_space (c : ascii) : bool :=
  let n := code c in
  between 9 13 n || between 28 32 n || (n =? 133) || (n =? 160).

(** [\w] on [str] patterns: alphanumeric code points and the underscore,
    below 256. *)
Definition is_word (c : ascii) : bool :=
  let n := code c in
  between 48 57 n || between 65 90 n || (n =? 95) || between 97 122 n
  || (n =? 170) || (n =? 178) || (n =? 179) || (n =? 181) || (n =? 185)
  || (n =? 186) || between 188 190 n || between 192 214 n
  || between 216 246 n || between 248 255 n.

Definition is_word_opt (c : option ascii) : bool :=
  match c with Some c => is_word c | None => false end.

Definition head_char (s : string) : option ascii :=
  match s with String c _ => Some c | EmptyString => None end.

(** [\b]: exactly one of the characters before and after the position is
    a word character (the ends of the text count as non-word). *)
Definition at_boundary (prev : option ascii) (s : string) : bool :=
  xorb (is_word_opt prev) (is_word_opt (head_char s)).

(** Backtracking match of a pattern at the current position; [prev] is
    the character just before it. *)
Fixpoint match_here (r : regex) (prev : option ascii) (s : string) : bool :=
  match r with
  | [] => true
  | Lit p :: rest =>
      match s with
      | String c s' => lit_matches p c && match_here rest (Some c) s'
      | EmptyString => false
      end
  | WordBoundary :: rest => at_boundary prev s && match_here rest prev s
  | Spaces :: rest =>
      (fix spaces (s : string) : bool :=
         match s with
         | String c s' =>
             is_space c && (spaces s' || match_here rest (Some c) s')
         | EmptyString => false
         end) s
  end.

Fixpoint search_from (r : regex) (prev : option ascii) (s : string) : bool :=
  match_here r prev s
  || match s with
     | String c s' => search_from r (Some c) s'
     | EmptyString => false
     end.

(** [pattern.search(text)], as a truth value. *)
Definition search (r : regex) (text : string) : bool := search_from r None text.

Definition lit (s : string) : regex := map Lit (list_ascii_of_string s).

End Re.

(* ===================================================================== *)
(** * Part 2: parse_tax_forms.py                                         *)
(* ===================================================================== *)

Import Re.

(** [r"SCHEDULE\s+X\s+\(Form\s+1040\)"] *)
Definition schedule_re (x : string) : regex :=
  (lit "SCHEDULE" ++ [Spaces] ++ lit x ++ [Spaces] ++ lit "(Form"
   ++ [Spaces] ++ lit "1040)")%list.

(** [r"Form\s+N\b"] *)
Definition form_re (n : string) : regex :=
  (lit "Form" ++ [Spaces] ++ lit n ++ [WordBoundary])%list.

(** The ordered registry: compiled pattern, standardized document type. *)
Definition ALL_FORM_PATTERNS : list (regex * string) :=
  [ (schedule_re "1", "f1040s1");
    (schedule_re "2", "f1040s2");
    (schedule_re "3", "f1040s3");
    (schedule_re "A", "f1040sa");
    (schedule_re "B", "f1040sb");
    (schedule_re "C", "f1040sc");
    (schedule_re "D", "f1040sd");
    (schedule_re "E", "f1040se");
    (schedule_re "8812", "f1040s8812");
    (form_re "1040", "1040f");
    (form_re "8889", "f8889");
    (form_re "8879", "f8879");
    (form_re "1116", "f1116");
    (form_re "4952", "f4952");
    (form_re "8949", "f8949");
    (form_re "8995", "f8995");
    (form_re "8959", "f8959");
    (form_re "8960", "f8960");
    (form_re "8582", "f8582");
    (form_re "8863", "f8863");
    (form_re "8812", "f8812");
    (form_re "2441", "f2441") ].

Section Scan.
Context {Pattern Text : Type}.
Variable search : Pattern → Text → bool.

(** The loop [for pattern, doc_type in registry.items()] with its early
    [return]. The first component records the patterns whose [search]
    was called, in call order. *)
Fixpoint scan_registry (registry : list (Pattern * string)) (text : Text)
  : list Pattern * option string :=
  match registry with
  | [] => ([], None)
  | (pattern, doc_type) :: rest =>
      if search pattern text then ([pattern], Some doc_type)
      else
        let '(tried, result) := scan_registry rest text in
        (pattern :: tried, result)
  end.

(** [i] is the position of the first entry whose pattern matches. *)
Definition first_match (registry : list (Pattern * string)) (text : Text)
    (i : nat) : Prop :=
  (∃ p l, registry !! i = Some (p, l) ∧ search p text = true)
  ∧ ∀ j p l, (j < i)%nat → registry !! j = Some (p, l) →
             search p text = false.

Definition no_match (registry : list (Pattern * string)) (text : Text)
  : Prop :=
  ∀ p l, (p, l) ∈ registry → search p text = false.
End Scan.

(** The text argument stands for
    [page.get_text("text", clip=fitz.Rect(0, 0, 150, 70))]. *)
Definition identify_form_on_page_log (text : string)
  : list regex * option string :=
  scan_registry Re.search ALL_FORM_PATTERNS text.

Definition identify_form_on_page (text : string) : option string :=
  (identify_form_on_page_log text).2.

(** The patterns on which [search] is called for one page. *)
Definition patterns_searched (text : string) : list regex :=
  (identify_form_on_page_log text).1.

(** A finished segment: the dictionary with keys [document_type],
    [start_page] and [end_page]. *)
Record form : Type := Form {
  document_type : string;
  start_page : Z;
  end_page : Z
}.

(** The segment being tracked: the dictionary [current_form] before its
    [end_page] is set. *)
Record tracked : Type := Tracked {
  tracked_type : string;
  tracked_start : Z
}.

(** [current_form["end_page"] = n], the dictionary then being appended. *)
Definition close (cur : tracked) (n : Z) : form :=
  Form (tracked_type cur) (tracked_start cur) n.

(** Truth value of [form_type] in [if form_type:]: false for [None] and
    for the empty string. *)
Definition truthy (form_type : option string) : bool :=
  match form_type with
  | Some s => negb (String.eqb s "")
  | None => false
  end.

(** State of the page loop: [found_forms] and [current_form]. *)
Definition scan_state : Type := list form * option tracked.

(** One iteration of the page loop, [form_type] being the label of the
    page numbered [human_page_num]. *)
Definition page_step (human_page_num : Z) (form_type : option string)
    (st : scan_state) : scan_state :=
  let '(found_forms, current_form) := st in
  match form_type with
  | Some ft =>
      if truthy form_type then
        match current_form with
        | None => (found_forms, Some (Tracked ft human_page_num))
        | Some cur =>
            if bool_decide (ft ≠ tracked_type cur) then
              ((found_forms ++ [close cur (human_page_num - 1)])%list,
               Some (Tracked ft human_page_num))
            else st
        end
      else st
  | None => st
  end.

(** [for page_num in range(len(doc))], from [page_num] on. *)
Fixpoint page_loop (labels : list (option string)) (page_num : Z)
    (st : scan_state) : scan_state :=
  match labels with
  | [] => st
  | form_type :: rest =>
      page_loop rest (page_num + 1) (page_step (page_num + 1) form_type st)
  end.

(** The code after the loop; [len_doc] is [len(doc)]. *)
Definition finish (len_doc : Z) (st : scan_state) : list form :=
  let '(found_forms, current_form) := st in
  match current_form with
  | Some cur => (found_forms ++ [close cur len_doc])%list
  | None => found_forms
  end.

(** The segment builder on the label stream of a document. *)
Definition build_segments (labels : list (option string)) : list form :=
  finish (Z.of_nat (length labels)) (page_loop labels 0 ([], None)).

(** What [fitz.open(pdf_path)] yields: an exception, of which only the
    message is kept, or the document, given by the region text of each of
    its pages. *)
Inductive opened : Type :=
| OpenError (e : string)
| Document (pages : list string).

Definition open_error_message (pdf_path e : string) : string :=
  "Error: Could not open or read PDF file at '" +:+ pdf_path
  +:+ "'. Reason: " +:+ e.

Section Parser.
(** The file system as [fitz.open] sees it. *)
Variable fitz_open : string → opened.

(** Returns the lines printed and the list of forms. The label of each
    page is computed by [identify_form_on_page], which has no effect, so
    the loop is run on the stream of labels. *)
Definition find_tax_forms_in_pdf (pdf_path : string)
  : list string * list form :=
  match fitz_open pdf_path with
  | OpenError e => ([open_error_message pdf_path e], [])
  | Document pages =>
      ([], build_segments (map identify_form_on_page pages))
  end.
End Parser.

Definition desired_forms : gset string :=
  {[ "f1040s1"; "f1040s3"; "f1040sa";
     "f1040sb"; "f1040sc"; "f1040sd"; "f1040se";
     "1040f"; "f8889"; "f8949" ]}.

(** [form["document_type"] in desired_forms] *)
Definition desired (f : form) : Prop := document_type f ∈ desired_forms.

#[global] Instance desired_dec (f : form) : Decision (desired f).
Proof. unfold desired. apply _. Defined.

Module ParseMain.
Section Main.
Variable fitz_open : string → opened.

(** [main] of parse_tax_forms.py: the lines printed, and the returned
    value, [None] standing for Python's [None]. *)
Definition main (pdf_file_path : string)
  : list string * option (list form) :=
  let '(out, all_identified_forms) :=
    find_tax_forms_in_pdf fitz_open pdf_file_path in
  match all_identified_forms with
  | [] =>
      ((out ++ ["No tax forms could be identified in the document."])%list,
       None)
  | _ :: _ => (out, Some (filter desired all_identified_forms))
  end.
End Main.
End ParseMain.

(* ===================================================================== *)
(** * Part 3: evaluate.py                                                *)
(* ===================================================================== *)

#[global] Instance form_eq_dec : EqDecision form.
Proof. solve_decision. Defined.

#[global] Instance form_countable : Countable form.
Proof.
  apply (inj_countable'
           (λ f, (document_type f, start_page f, end_page f))
           (λ t, Form t.1.1 t.1.2 t.2)).
  by intros [].
Defined.

(** Per-file counts: the dictionary with keys [tp], [fp] and [fn]. *)
Record metrics : Type := Metrics { tp : Z; fp : Z; fn : Z }.

(** [len] of a set. *)
Definition len (s : gset form) : Z := Z.of_nat (size s).

(** A record is hashed as [tuple(sorted(p.items()))]; for dictionaries
    with the three keys of [form] two such tuples are equal exactly when
    the records are, so the sets are sets of records. *)
Definition calculate_metrics_for_file (predicted ground_truth : list form)
  : metrics :=
  let predicted_set : gset form := list_to_set predicted in
  let truth_set : gset form := list_to_set ground_truth in
  let true_positives := len (predicted_set ∩ truth_set) in
  let false_positives := len (predicted_set ∖ truth_set) in
  let false_negatives := len (truth_set ∖ predicted_set) in
  Metrics true_positives false_positives false_negatives.

(** ** Python floats *)

Module Float.

Definition prec : Z := 53.
Definition emax : Z := 1024.

Definition zero : spec_float := S754_zero false.

(** An integer as an exact binary number (mantissa and exponent 0). *)
Definition of_int (n : Z) : spec_float :=
  match n with
  | Z0 => S754_zero false
  | Zpos p => S754_finite false p 0
  | Zneg p => S754_finite true p 0
  end.

(** [a / b] on two [int]s with [b != 0]: the quotient correctly rounded
    to binary64. *)
Definition truediv (a b : Z) : spec_float :=
  SFdiv prec emax (of_int a) (of_int b).

(** Conversion of a small [int] operand in mixed arithmetic. *)
Definition of_small_int (n : Z) : spec_float :=
  binary_normalize prec emax n 0 false.

Definition add : spec_float → spec_float → spec_float := SFadd prec emax.
Definition mul : spec_float → spec_float → spec_float := SFmul prec emax.
Definition div : spec_float → spec_float → spec_float := SFdiv prec emax.

(** [x > 0] for a float [x]. *)
Definition gt_zero (x : spec_float) : bool := SFltb zero x.

(** The integer nearest to [n * 2^e], ties going to the even one. *)
Definition nearest_even (n e : Z) : Z :=
  if 0 <=? e then n * 2 ^ e
  else
    let d := 2 ^ (- e) in
    let q := n / d in
    let r := n mod d in
    match 2 * r ?= d with
    | Lt => q
    | Gt => q + 1
    | Eq => if Z.even q then q else q + 1
    end.

(** [round(x, 4)]: the exact value of [x] is rounded, half to even, to a
    decimal with four digits after the point, which is then converted
    back to the nearest float. *)
Definition round4 (x : spec_float) : spec_float :=
  match x with
  | S754_finite s m e =>
      let k := nearest_even (Zpos m * 10000) e in
      let r := truediv k 10000 in
      if s then SFopp r else r
  | _ => x
  end.

End Float.

(** The dictionary [overall_metrics]. *)
Record overall : Type := Overall {
  total_true_positives : Z;
  total_false_positives : Z;
  total_false_negatives : Z;
  precision : spec_float;
  recall : spec_float;
  f1_score : spec_float
}.

(** Assignment [d[k] = v] on an insertion-ordered dictionary. *)
Fixpoint dict_set {V : Type} (k : string) (v : V) (d : list (string * V))
  : list (string * V) :=
  match d with
  | [] => [(k, v)]
  | (k', v') :: rest =>
      if bool_decide (k' = k) then (k, v) :: rest
      else (k', v') :: dict_set k v rest
  end.

(** [f.lower().endswith('.pdf')] *)
Definition is_pdf_name (f : string) : bool :=
  let cs := list_ascii_of_string f in
  let n := length cs in
  bool_decide (4 ≤ n)%nat
  && bool_decide (map Re.lower (drop (n - 4) cs)
                  = map Re.lower (list_ascii_of_string ".pdf")).

(** The result of [evaluate_parser_accuracy]; [None] is the empty
    dictionary returned when there is no PDF file. *)
Record report : Type := Report {
  overall_metrics : overall;
  per_file_results : list (string * metrics)
}.

(** Accumulators of the loop over the PDF files. *)
Record totals : Type := Totals {
  total_tp : Z;
  total_fp : Z;
  total_fn : Z;
  per_file : list (string * metrics);
  printed : list string
}.

(** Steps 2 and 4 of the loop body. *)
Definition score_file (predicted_forms ground_truth_forms : list form)
  : metrics :=
  let predicted_forms_filtered := filter desired predicted_forms in
  calculate_metrics_for_file predicted_forms_filtered ground_truth_forms.

(** The micro-averaged metrics computed after the loop. *)
Definition micro_average (total_tp total_fp total_fn : Z) : overall :=
  let precision :=
    if 0 <? total_tp + total_fp
    then Float.truediv total_tp (total_tp + total_fp) else Float.zero in
  let recall :=
    if 0 <? total_tp + total_fn
    then Float.truediv total_tp (total_tp + total_fn) else Float.zero in
  let f1_score :=
    if Float.gt_zero (Float.add precision recall)
    then Float.div (Float.mul (Float.of_small_int 2)
                              (Float.mul precision recall))
                   (Float.add precision recall)
    else Float.zero in
  Overall total_tp total_fp total_fn
          (Float.round4 precision) (Float.round4 recall)
          (Float.round4 f1_score).

(** The world outside: PyMuPDF, [os] and the ground-truth files, the
    latter as [json.load] returns them. *)
Record world : Type := World {
  fitz_open : string → opened;
  os_listdir : string → list string;
  os_path_join : string → string → string;
  os_path_splitext_root : string → string;
  os_path_exists : string → bool;
  json_load : string → list form
}.

Section Evaluate.
Variable w : world.

(** One iteration of [for pdf_filename in pdf_files]. *)
Definition evaluate_file (pdf_dir ground_truth_dir pdf_filename : string)
    (acc : totals) : totals :=
  let basename := os_path_splitext_root w pdf_filename in
  let pdf_path := os_path_join w pdf_dir pdf_filename in
  let json_path := os_path_join w ground_truth_dir (basename +:+ ".json") in
  if negb (os_path_exists w json_path) then
    Totals (total_tp acc) (total_fp acc) (total_fn acc) (per_file acc)
      (printed acc ++ ["Warning: No matching ground truth for '"
                       +:+ pdf_filename +:+ "'. Skipping."])%list
  else
    let '(out, predicted_forms) :=
      find_tax_forms_in_pdf (fitz_open w) pdf_path in
    let ground_truth_forms := json_load w json_path in
    let file_metrics := score_file predicted_forms ground_truth_forms in
    Totals (total_tp acc + tp file_metrics)
           (total_fp acc + fp file_metrics)
           (total_fn acc + fn file_metrics)
           (dict_set pdf_filename file_metrics (per_file acc))
           (printed acc ++ out)%list.

Definition evaluate_loop (pdf_dir ground_truth_dir : string)
    (pdf_files : list string) (acc : totals) : totals :=
  foldl (λ acc pdf_filename,
           evaluate_file pdf_dir ground_truth_dir pdf_filename acc)
        acc pdf_files.

(** The loop and what follows it, on a given list [pdf_files]. *)
Definition evaluate_files (pdf_dir ground_truth_dir : string)
    (pdf_files : list string) : totals * report :=
  let acc :=
    evaluate_loop pdf_dir ground_truth_dir pdf_files (Totals 0 0 0 [] []) in
  (acc,
   Report (micro_average (total_tp acc) (total_fp acc) (total_fn acc))
          (per_file acc)).

(** The lines printed and the returned dictionary. *)
Definition evaluate_parser_accuracy (pdf_dir ground_truth_dir : string)
  : list string * option report :=
  let pdf_files := filter (λ f, is_pdf_name f = true) (os_listdir w pdf_dir) in
  match pdf_files with
  | [] => (["Warning: No PDF files found in '" +:+ pdf_dir +:+ "'."], None)
  | _ :: _ =>
      let '(acc, result) :=
        evaluate_files pdf_dir ground_truth_dir pdf_files in
      (("Found " +:+ pretty (length pdf_files) +:+ " PDF files to evaluate.")
         :: printed acc,
       Some result)
  end.
End Evaluate.

(* ===================================================================== *)
(** * Part 4: vocabulary of the statements                               *)
(* ===================================================================== *)

(** ** Segments *)

(** [ordered lo segs]: every segment has [start_page <= end_page], the
    first starts at [lo] or later, and each next one starts after the end
    of the one before it. *)
Fixpoint ordered (lo : Z) (segs : list form) : Prop :=
  match segs with
  | [] => True
  | f :: rest =>
      lo ≤ start_page f ∧ start_page f ≤ end_page f
      ∧ ordered (end_page f + 1) rest
  end.

(** The first page not covered by [segs], counting from [lo]. *)
Definition next_free (lo : Z) (segs : list form) : Z :=
  foldl (λ _ f, end_page f + 1) lo segs.

Arguments next_free : simpl never.

(** Invariant of the page loop after [n] pages. *)
Definition loop_inv (n : Z) (st : scan_state) : Prop :=
  ordered 1 st.1
  ∧ match st.2 with
    | Some cur =>
        next_free 1 st.1 ≤ tracked_start cur ∧ tracked_start cur ≤ n
    | None => next_free 1 st.1 ≤ n + 1
    end.

(** ** Scoring *)

(** The counts as the specification words them, on the lists themselves:
    the number of distinct records of [a] that occur, respectively do not
    occur, in [b]. *)
Definition count_distinct_in (a b : list form) : Z :=
  Z.of_nat (length (filter (λ r, r ∈ b) (remove_dups a))).

Definition count_distinct_not_in (a b : list form) : Z :=
  Z.of_nat (length (filter (λ r, r ∉ b) (remove_dups a))).

(** Sum of one count over a list of per-document records. *)
Definition sum_with (f : metrics → Z) (ms : list metrics) : Z :=
  foldr (λ m s, f m + s) 0 ms.

(** The comparison the specification describes, with the allow-list
    applied to both sides. *)
Definition score_file_both_filtered (predicted_forms ground_truth_forms
    : list form) : metrics :=
  calculate_metrics_for_file (filter desired predicted_forms)
                             (filter desired ground_truth_forms).

(** The two paths built for a file of the corpus. *)
Definition pdf_path_of (w : world) (pdf_dir pdf_filename : string) : string :=
  os_path_join w pdf_dir pdf_filename.

Definition json_path_of (w : world) (ground_truth_dir pdf_filename : string)
  : string :=
  os_path_join w ground_truth_dir
               (os_path_splitext_root w pdf_filename +:+ ".json").

(** The per-document record of a file, when it has a ground truth. *)
Definition scored (w : world) (pdf_dir ground_truth_dir pdf_filename : string)
  : option metrics :=
  if os_path_exists w (json_path_of w ground_truth_dir pdf_filename) then
    Some (score_file
            (find_tax_forms_in_pdf (fitz_open w)
               (pdf_path_of w pdf_dir pdf_filename)).2
            (json_load w (json_path_of w ground_truth_dir pdf_filename)))
  else None.

(** A small corpus: [a.pdf] is a return with an e-file authorisation
    (Form 8879, recognised but not desired) between two desired forms,
    [b.pdf] cannot be opened, [c.PDF] has no ground truth and [notes.txt]
    is not a PDF. *)
Definition sample_world : world := {|
  fitz_open := λ path,
    if String.eqb path "pdfs/a.pdf" then
      Document ["Form 1040"; "(continued)"; "Form 8879";
                "SCHEDULE C (Form 1040)"]
    else if String.eqb path "pdfs/b.pdf" then
      OpenError "cannot open broken document"
    else Document ["Form 1040"];
  os_listdir := λ dir,
    if String.eqb dir "pdfs" then ["a.pdf"; "notes.txt"; "b.pdf"; "c.PDF"]
    else [];
  os_path_join := λ dir name, dir +:+ "/" +:+ name;
  os_path_splitext_root := λ name,
    String.substring 0 (String.length name - 4) name;
  os_path_exists := λ path,
    bool_decide (path ∈ ["truth/a.json"; "truth/b.json"]);
  json_load := λ path,
    if String.eqb path "truth/a.json" then
      [Form "1040f" 1 2; Form "f8879" 3 3; Form "f1040sc" 4 4]
    else if String.eqb path "truth/b.json" then [Form "1040f" 1 2]
    else []
|}.

(** The same world with another directory listing. *)
Definition with_listdir (w : world) (listdir : string → list string)
  : world :=
  {| fitz_open := fitz_open w;
     os_listdir := listdir;
     os_path_join := os_path_join w;
     os_path_splitext_root := os_path_splitext_root w;
     os_path_exists := os_path_exists w;
     json_load := json_load w |}.

(** ** Floats *)

(** Floats that are [+0.0], positive and finite, or [+inf]. *)
Definition nonneg_float (x : spec_float) : Prop :=
  match x with
  | S754_zero false | S754_finite false _ _ | S754_infinity false => True
  | _ => False
  end.

(** [x == 0] for a float [x]. *)
Definition eq_zero (x : spec_float) : bool := SFeqb x Float.zero.

(** The three quotients with their guards read as "the denominator is
    zero". *)
Definition guarded_precision (total_tp total_fp : Z) : spec_float :=
  if decide (total_tp + total_fp = 0) then Float.zero
  else Float.truediv total_tp (total_tp + total_fp).

Definition guarded_recall (total_tp total_fn : Z) : spec_float :=
  if decide (total_tp + total_fn = 0) then Float.zero
  else Float.truediv total_tp (total_tp + total_fn).

Definition guarded_f1 (precision recall : spec_float) : spec_float :=
  if eq_zero (Float.add precision recall) then Float.zero
  else Float.div (Float.mul (Float.of_small_int 2)
                            (Float.mul precision recall))
                 (Float.add precision recall).

(** ** Segments, without the accumulator *)

(** The segments still to come when [cur] is tracked and [n] pages have
    been read. *)
Fixpoint runs_from (cur : tracked) (n : Z) (labels : list (option string))
    (len_doc : Z) : list form :=
  match labels with
  | [] => [close cur len_doc]
  | form_type :: rest =>
      match form_type with
      | Some L =>
          if truthy form_type && bool_decide (L ≠ tracked_type cur) then
            close cur n :: runs_from (Tracked L (n + 1)) (n + 1) rest len_doc
          else runs_from cur (n + 1) rest len_doc
      | None => runs_from cur (n + 1) rest len_doc
      end
  end.

(** The segments still to come when no segment is tracked yet. *)
Fixpoint runs (n : Z) (labels : list (option string)) (len_doc : Z)
  : list form :=
  match labels with
  | [] => []
  | form_type :: rest =>
      match form_type with
      | Some L =>
          if truthy form_type
          then runs_from (Tracked L (n + 1)) (n + 1) rest len_doc
          else runs (n + 1) rest len_doc
      | None => runs (n + 1) rest len_doc
      end
  end.

(** The labels of a stream with the unlabelled pages dropped and every
    run of equal labels reduced to one; [prev] is the label of the run in
    progress. *)
Fixpoint label_runs (prev : option string) (labels : list (option string))
  : list string :=
  match labels with
  | [] => []
  | form_type :: rest =>
      match form_type with
      | Some L =>
          if truthy form_type && bool_decide (form_type ≠ prev)
          then L :: label_runs form_type rest
          else label_runs prev rest
      | None => label_runs prev rest
      end
  end.



(** ** Positions in a text *)



Fixpoint map_string (g : ascii → ascii) (s : string) : string :=
  match s with
  | EmptyString => EmptyString
  | String c s' => String (g c) (map_string g s')
  end.



(** ** Corpus reports *)

(** The float 1.0. *)
Definition float_one : spec_float := S754_finite false 4503599627370496 (-52).

(** A file of the corpus has a ground truth. *)
Definition has_ground_truth (w : world) (ground_truth_dir pdf_filename : string)
  : Prop :=
  os_path_exists w (json_path_of w ground_truth_dir pdf_filename) = true.

#[global] Instance has_ground_truth_dec w ground_truth_dir pdf_filename :
  Decision (has_ground_truth w ground_truth_dir pdf_filename).
Proof. unfold has_ground_truth. apply _. Defined.

(** The entry of [per_file_results] a file gives rise to. *)
Definition per_file_entry (w : world) (pdf_dir ground_truth_dir : string)
    (pdf_filename : string) : option (string * metrics) :=
  (λ m, (pdf_filename, m)) <$> scored w pdf_dir ground_truth_dir pdf_filename.

(* ===================================================================== *)
(** * Part 5: the Form Identifier                                        *)
(* ===================================================================== *)

Section ScanFacts.
Context {Pattern Text : Type}.
Variable search : Pattern → Text → bool.

Lemma scan_registry_no_match registry text :
  no_match search registry text →
  scan_registry search registry text = (registry.*1, None).
Proof.
  induction registry as [|[p l] rest IH]; intros Hno; [done|].
  cbn. rewrite (Hno p l) by left.
  rewrite IH; [done|].
  intros p' l' Hin. apply (Hno p' l'). by right.
Qed.

Lemma scan_registry_first registry text i p l :
  registry !! i = Some (p, l) →
  first_match search registry text i →
  scan_registry search registry text = (take (S i) registry.*1, Some l).
Proof.
  revert i. induction registry as [|[p0 l0] rest IH]; intros i Hi Hfirst.
  - done.
  - destruct Hfirst as [(p' & l' & Hi' & Hm) Hbefore].
    rewrite Hi in Hi'. injection Hi' as <- <-.
    destruct i as [|i]; cbn in *.
    + injection Hi as -> ->. by rewrite Hm.
    + rewrite (Hbefore 0%nat p0 l0) by (done || lia).
      rewrite (IH i Hi); [done|].
      split; [by exists p, l|].
      intros j q m Hj Hq. apply (Hbefore (S j) q m); [lia|done].
Qed.

Lemma scan_registry_cases registry text :
  no_match search registry text ∨ ∃ i, first_match search registry text i.
Proof.
  induction registry as [|[p l] rest IH].
  - left. intros p l Hin. by apply elem_of_nil in Hin.
  - destruct (search p text) eqn:Hp.
    + right. exists 0%nat. split; [by exists p, l|]. intros; lia.
    + destruct IH as [Hno|[i [(q & m & Hi & Hq) Hbefore]]].
      * left. intros q m Hin. apply elem_of_cons in Hin as [[= -> ->]|Hin];
          [done|by apply (Hno q m)].
      * right. exists (S i). split; [by exists q, m|].
        intros [|j] q' m' Hj Hq'; cbn in Hq'.
        -- by injection Hq' as <- <-.
        -- apply (Hbefore j q' m'); [lia|done].
Qed.

(** Some entry at or before a matching one is the first match. *)
Lemma first_match_before registry text i p l :
  registry !! i = Some (p, l) → search p text = true →
  ∃ k, (k ≤ i)%nat ∧ first_match search registry text k.
Proof.
  intros Hi Hp.
  destruct (scan_registry_cases registry text) as [Hno|[k Hk]].
  - apply list_elem_of_lookup_2 in Hi. specialize (Hno p l Hi). congruence.
  - exists k. split; [|done].
    destruct (decide (k ≤ i)%nat) as [|Hgt]; [done|].
    destruct Hk as [_ Hbefore].
    specialize (Hbefore i p l ltac:(lia) Hi). congruence.
Qed.
End ScanFacts.

Lemma registry_labels_distinct : NoDup (ALL_FORM_PATTERNS.*2).
Proof. apply (bool_decide_unpack _). by vm_compute. Qed.

(** C1. [identify_form_on_page] scans the registry in its insertion order
    and returns the label of the first pattern whose regex matches the
    region text, calling [search] on no pattern after it; [None] is
    returned exactly when no pattern matches; and when two registered
    patterns match, the label of the later one is never returned: the
    result is the label of an entry at or before the earlier one. *)
Theorem identify_form_on_page_first_match (text : string) :
  (identify_form_on_page text = None
   ↔ no_match Re.search ALL_FORM_PATTERNS text)
  ∧ (∀ doc_type,
       identify_form_on_page text = Some doc_type
       ↔ ∃ i pattern,
           ALL_FORM_PATTERNS !! i = Some (pattern, doc_type)
           ∧ first_match Re.search ALL_FORM_PATTERNS text i)
  ∧ (∀ i, first_match Re.search ALL_FORM_PATTERNS text i →
          patterns_searched text = take (S i) ALL_FORM_PATTERNS.*1)
  ∧ (∀ i j pi li pj lj,
       (i < j)%nat →
       ALL_FORM_PATTERNS !! i = Some (pi, li) →
       ALL_FORM_PATTERNS !! j = Some (pj, lj) →
       Re.search pi text = true → Re.search pj text = true →
       identify_form_on_page text ≠ Some lj
       ∧ ∃ k pk lk, (k ≤ i)%nat
                    ∧ ALL_FORM_PATTERNS !! k = Some (pk, lk)
                    ∧ identify_form_on_page text = Some lk).
Proof.
  unfold identify_form_on_page, patterns_searched, identify_form_on_page_log.
  set (reg := ALL_FORM_PATTERNS).
  assert (Hfirst : ∀ i p l, reg !! i = Some (p, l) →
            first_match Re.search reg text i →
            scan_registry Re.search reg text = (take (S i) reg.*1, Some l))
    by (intros; by apply scan_registry_first with p).
  split; [|split; [|split]].
  - split.
    + intros Hnone.
      destruct (scan_registry_cases Re.search reg text) as [|[i Hi]]; [done|].
      pose proof Hi as [(p & l & Hl & _) _].
      rewrite (Hfirst i p l Hl Hi) in Hnone. done.
    + intros Hno. by rewrite scan_registry_no_match.
  - intros doc_type. split.
    + intros Hsome.
      destruct (scan_registry_cases Re.search reg text) as [Hno|[i Hi]].
      * rewrite scan_registry_no_match in Hsome; done.
      * pose proof Hi as [(p & l & Hl & _) _].
        rewrite (Hfirst i p l Hl Hi) in Hsome. injection Hsome as <-.
        by exists i, p.
    + intros (i & p & Hl & Hi). by rewrite (Hfirst i p doc_type Hl Hi).
  - intros i Hi. pose proof Hi as [(p & l & Hl & _) _].
    by rewrite (Hfirst i p l Hl Hi).
  - intros i j pi li pj lj Hij Hi Hj Hmi Hmj.
    destruct (first_match_before Re.search reg text i pi li Hi Hmi)
      as (k & Hk & Hkfirst).
    pose proof Hkfirst as [(pk & lk & Hlk & _) _].
    rewrite (Hfirst k pk lk Hlk Hkfirst). cbn. split.
    + intros [= ->].
      assert (Hk2 : reg.*2 !! k = Some lj) by (by rewrite list_lookup_fmap, Hlk).
      assert (Hj2 : reg.*2 !! j = Some lj) by (by rewrite list_lookup_fmap, Hj).
      pose proof (NoDup_lookup _ _ _ _ registry_labels_distinct Hk2 Hj2). lia.
    + by exists k, pk, lk.
Qed.

Lemma identify_form_on_page_first_match_witness :
  identify_form_on_page "SCHEDULE C (Form 1040)" ≠ Some "1040f".
Proof.
  destruct (identify_form_on_page_first_match "SCHEDULE C (Form 1040)")
    as (_ & _ & _ & H).
  destruct (H 5%nat 9%nat (schedule_re "C") "f1040sc" (form_re "1040") "1040f")
    as [Hne _]; [lia|reflexivity..|exact Hne].
Defined.

(** A page whose corner reads "SCHEDULE C (Form 1040)" matches both the
    Schedule C pattern (position 5) and the Form 1040 pattern (position
    9); the earlier one decides. *)
Example identify_schedule_c :
  let text := "SCHEDULE C (Form 1040)" in
  Re.search (schedule_re "C") text = true
  ∧ Re.search (form_re "1040") text = true
  ∧ identify_form_on_page text = Some "f1040sc"
  ∧ length (patterns_searched text) = 6%nat.
Proof. by vm_compute. Qed.

Example identify_whitespace_and_case :
  identify_form_on_page "schedule   8812
(form 1040)" = Some "f1040s8812"
  ∧ identify_form_on_page "Form  1040-SR" = Some "1040f"
  ∧ identify_form_on_page "Form 10401" = None
  ∧ identify_form_on_page "Department of the Treasury" = None.
Proof. by vm_compute. Qed.

(* ===================================================================== *)
(** * Part 6: the Segment Builder                                        *)
(* ===================================================================== *)

Lemma page_step_none p st : page_step p None st = st.
Proof. by destruct st. Qed.

Lemma truthy_some (L : string) : L ≠ "" → truthy (Some L) = true.
Proof.
  intros HL. cbn. destruct (String.eqb_spec L ""); [contradiction|done].
Qed.

Lemma page_step_open p L found : L ≠ "" →
  page_step p (Some L) (found, None) = (found, Some (Tracked L p)).
Proof. intros HL. unfold page_step. by rewrite truthy_some. Qed.

Lemma page_step_same p L found cur : L = tracked_type cur →
  page_step p (Some L) (found, Some cur) = (found, Some cur).
Proof.
  intros ->. unfold page_step. rewrite bool_decide_eq_false_2 by tauto.
  by destruct (truthy _).
Qed.

Lemma page_step_other p L found cur : L ≠ "" → L ≠ tracked_type cur →
  page_step p (Some L) (found, Some cur)
  = ((found ++ [close cur (p - 1)])%list, Some (Tracked L p)).
Proof.
  intros HL Hne. unfold page_step.
  by rewrite truthy_some, bool_decide_eq_true_2.
Qed.

(** The loop over a concatenation: the page at 1-based position
    [length pre + 1] is handled by [page_step] with that page number. *)
Lemma page_loop_app pre post n st :
  page_loop (pre ++ post) n st
  = page_loop post (n + Z.of_nat (length pre)) (page_loop pre n st).
Proof.
  revert n st. induction pre as [|l pre IH]; intros n st; cbn [page_loop app length].
  - f_equal. lia.
  - rewrite IH. f_equal. lia.
Qed.

Lemma page_loop_snoc pre l n st :
  page_loop (pre ++ [l]) n st
  = page_step (n + Z.of_nat (length pre) + 1) l (page_loop pre n st).
Proof. by rewrite page_loop_app. Qed.

(** Once a segment is tracked, the forms found so far stay at the front
    of the result, followed by a segment of the tracked one's type and
    start page. *)
Lemma finish_tracked labels n len_doc found cur :
  ∃ e rest,
    finish len_doc (page_loop labels n (found, Some cur))
    = (found ++ Form (tracked_type cur) (tracked_start cur) e :: rest)%list.
Proof.
  revert n found cur. induction labels as [|l labels IH]; intros n found cur.
  - by exists len_doc, [].
  - cbn [page_loop]. destruct l as [L|]; [|rewrite page_step_none; apply IH].
    destruct (decide (L = "")) as [->|HL]; [apply IH|].
    destruct (decide (L = tracked_type cur)) as [Heq|Hne].
    + rewrite page_step_same by done. apply IH.
    + rewrite page_step_other by done.
      destruct (IH (n + 1) (found ++ [close cur (n + 1 - 1)])%list
                   (Tracked L (n + 1))) as (e & rest & ->).
      exists (n + 1 - 1), (Form L (n + 1) e :: rest).
      by rewrite <- app_assoc.
Qed.

(** C3. A page whose label is [None] leaves the state of the page loop
    unchanged, whatever the state: it neither closes the open segment nor
    starts a new one; a stream continues after it from the state reached
    before it. So the stream [A, A, None, A] over pages 1 to 4 yields the
    single segment (A, 1, 4). *)
Theorem unlabeled_page_keeps_segment (A : string) (HA : A ≠ "") :
  (∀ p st, page_step p None st = st)
  ∧ (∀ pre post,
       page_loop (pre ++ None :: post) 0 ([], None)
       = page_loop post (Z.of_nat (length pre) + 1)
                   (page_loop pre 0 ([], None)))
  ∧ build_segments [Some A; Some A; None; Some A] = [Form A 1 4].
Proof.
  split; [apply page_step_none|split].
  - intros pre post. rewrite page_loop_app. cbn [page_loop].
    rewrite page_step_none. f_equal.
  - unfold build_segments. cbn [page_loop length].
    rewrite page_step_open by done.
    rewrite page_step_same by done.
    rewrite page_step_none.
    rewrite page_step_same by done.
    done.
Qed.

Lemma unlabeled_page_keeps_segment_witness :
  build_segments [Some "1040f"; Some "1040f"; None; Some "1040f"]
  = [Form "1040f" 1 4].
Proof. apply (unlabeled_page_keeps_segment "1040f"). done. Defined.

(** C4. When the page at 1-based position [p] has a label different from
    that of the open segment, the open segment is closed with end page
    [p - 1] and emitted, and a segment with the new label opens at [p];
    a segment still open when the pages are exhausted is closed with the
    number of the last page; in particular [A, A, B, B] yields (A, 1, 2)
    and (B, 3, 4). *)
Theorem different_label_closes_segment :
  (∀ pre post L found cur,
     page_loop pre 0 ([], None) = (found, Some cur) →
     L ≠ "" → L ≠ tracked_type cur →
     let p := Z.of_nat (length pre) + 1 in
     page_loop (pre ++ [Some L]) 0 ([], None)
     = ((found ++ [Form (tracked_type cur) (tracked_start cur) (p - 1)])%list,
        Some (Tracked L p))
     ∧ ∃ e rest,
         build_segments (pre ++ Some L :: post)
         = (found ++ Form (tracked_type cur) (tracked_start cur) (p - 1)
                  :: Form L p e :: rest)%list)
  ∧ (∀ labels found cur,
       page_loop labels 0 ([], None) = (found, Some cur) →
       build_segments labels
       = (found ++ [Form (tracked_type cur) (tracked_start cur)
                         (Z.of_nat (length labels))])%list)
  ∧ (∀ A B, A ≠ "" → B ≠ "" → A ≠ B →
       build_segments [Some A; Some A; Some B; Some B]
       = [Form A 1 2; Form B 3 4]).
Proof.
  split; [|split].
  - intros pre post L found cur Hpre HL Hne p. split.
    + rewrite page_loop_snoc, Hpre, page_step_other by done.
      subst p. do 3 f_equal; lia.
    + unfold build_segments. rewrite page_loop_app, Hpre. cbn [page_loop].
      rewrite page_step_other by done.
      destruct (finish_tracked post (0 + Z.of_nat (length pre) + 1)
                  (Z.of_nat (length (pre ++ Some L :: post)))
                  (found ++ [close cur (0 + Z.of_nat (length pre) + 1 - 1)])%list
                  (Tracked L (0 + Z.of_nat (length pre) + 1)))
        as (e & rest & ->).
      exists e, rest. rewrite <- app_assoc. cbn. subst p.
      unfold close. do 4 f_equal; lia.
  - intros labels found cur Hloop. unfold build_segments. by rewrite Hloop.
  - intros A B HA HB HAB. unfold build_segments. cbn [page_loop length].
    rewrite page_step_open by done.
    rewrite page_step_same by done.
    rewrite page_step_other by done.
    rewrite page_step_same by done.
    done.
Qed.

Lemma different_label_closes_segment_witness :
  page_loop [Some "1040f"; Some "1040f"; Some "f8889"] 0 ([], None)
  = ([Form "1040f" 1 2], Some (Tracked "f8889" 3)).
Proof.
  destruct different_label_closes_segment as (H & _ & _).
  destruct (H [Some "1040f"; Some "1040f"] [Some "f8889"] "f8889"
              [] (Tracked "1040f" 1)) as [Hloop _];
    [reflexivity|done|done|exact Hloop].
Defined.

Example boundary_split_registry_labels :
  build_segments (map identify_form_on_page
                      ["Form 1040"; "Form 1040"; "Form 8889"; "Form 8889"])
  = [Form "1040f" 1 2; Form "f8889" 3 4]
  ∧ page_loop [Some "1040f"; Some "1040f"] 0 ([], None)
    = ([], Some (Tracked "1040f" 1))
  ∧ page_loop [Some "1040f"; Some "1040f"; Some "f8889"] 0 ([], None)
    = ([Form "1040f" 1 2], Some (Tracked "f8889" 3)).
Proof. by vm_compute. Qed.

(** ** Ordering of the emitted segments *)

Lemma ordered_app lo a b :
  ordered lo (a ++ b) ↔ ordered lo a ∧ ordered (next_free lo a) b.
Proof.
  revert lo. induction a as [|f a IH]; intros lo; cbn.
  - unfold next_free. cbn. tauto.
  - rewrite IH. unfold next_free. cbn. tauto.
Qed.

Lemma next_free_snoc lo a f : next_free lo (a ++ [f]) = end_page f + 1.
Proof. unfold next_free. by rewrite foldl_app. Qed.

Lemma ordered_next_free lo segs : ordered lo segs → lo ≤ next_free lo segs.
Proof.
  revert lo. induction segs as [|f segs IH]; intros lo; unfold next_free; cbn;
    [lia|].
  intros (? & ? & Hrest). apply IH in Hrest. unfold next_free in *. lia.
Qed.

Lemma ordered_bounds lo segs f :
  ordered lo segs → f ∈ segs →
  lo ≤ start_page f ∧ start_page f ≤ end_page f
  ∧ end_page f < next_free lo segs.
Proof.
  revert lo. induction segs as [|g segs IH]; intros lo Hord Hin.
  - by apply elem_of_nil in Hin.
  - cbn in Hord. destruct Hord as (Hlo & Hse & Hrest).
    pose proof (ordered_next_free _ _ Hrest) as Hnf.
    apply elem_of_cons in Hin as [->|Hin].
    + unfold next_free in *. cbn. lia.
    + destruct (IH _ Hrest Hin) as (? & ? & ?).
      unfold next_free in *. cbn. lia.
Qed.

Lemma ordered_lookup lo segs i j f g :
  ordered lo segs → (i < j)%nat →
  segs !! i = Some f → segs !! j = Some g →
  end_page f < start_page g.
Proof.
  revert lo i j. induction segs as [|h segs IH]; intros lo i j Hord Hij Hi Hj.
  - done.
  - cbn in Hord. destruct Hord as (Hlo & Hse & Hrest).
    destruct j as [|j]; [lia|]. cbn in Hj.
    destruct i as [|i]; cbn in Hi.
    + injection Hi as ->.
      apply list_elem_of_lookup_2 in Hj.
      destruct (ordered_bounds _ _ _ Hrest Hj) as (? & _). lia.
    + apply (IH _ i j Hrest); [lia|done..].
Qed.

Lemma page_step_inv n l st :
  loop_inv n st → loop_inv (n + 1) (page_step (n + 1) l st).
Proof.
  destruct st as [found cur]. intros [Hord Hcur]; cbn in Hord, Hcur.
  destruct l as [L|]; [|rewrite page_step_none; split; [done|]; cbn;
                         destruct cur; lia].
  destruct (decide (L = "")) as [->|HL].
  { split; [done|]. cbn. destruct cur; lia. }
  destruct cur as [cur|].
  - destruct (decide (L = tracked_type cur)) as [Heq|Hne].
    + rewrite page_step_same by done. split; [done|]. cbn. lia.
    + rewrite page_step_other by done. split; cbn.
      * apply ordered_app. split; [done|]. cbn. lia.
      * rewrite next_free_snoc. cbn. lia.
  - rewrite page_step_open by done. split; [done|]. cbn. lia.
Qed.

Lemma page_loop_inv labels n st :
  loop_inv n st →
  loop_inv (n + Z.of_nat (length labels)) (page_loop labels n st).
Proof.
  revert n st. induction labels as [|l labels IH]; intros n st Hinv.
  - cbn [page_loop length]. by replace (n + Z.of_nat 0) with n by lia.
  - cbn [page_loop length].
    replace (n + Z.of_nat (S (length labels)))
      with (n + 1 + Z.of_nat (length labels)) by lia.
    apply IH. by apply page_step_inv.
Qed.

Lemma build_segments_ordered labels :
  ordered 1 (build_segments labels)
  ∧ next_free 1 (build_segments labels) ≤ Z.of_nat (length labels) + 1.
Proof.
  unfold build_segments.
  pose proof (page_loop_inv labels 0 ([], None)) as Hinv.
  destruct (page_loop labels 0 ([], None)) as [found cur].
  destruct Hinv as [Hord Hcur]; [split; [done|]; by vm_compute|].
  cbn in Hord, Hcur. destruct cur as [cur|]; cbn.
  - split.
    + apply ordered_app. split; [done|]. cbn. lia.
    + rewrite next_free_snoc. cbn. lia.
  - split; [done|lia].
Qed.

(** C5. Pages being numbered 1, 2, ... in stream order, every emitted
    segment has [start_page <= end_page] (and lies within the pages of
    the document); the segments come in ascending order of start page;
    and no two of them share a page. *)
Theorem segments_ordered_disjoint (labels : list (option string)) :
  let segs := build_segments labels in
  (∀ f, f ∈ segs →
        1 ≤ start_page f ∧ start_page f ≤ end_page f
        ∧ end_page f ≤ Z.of_nat (length labels))
  ∧ (∀ i j f g, (i < j)%nat → segs !! i = Some f → segs !! j = Some g →
                start_page f < start_page g)
  ∧ (∀ i j f g, i ≠ j → segs !! i = Some f → segs !! j = Some g →
                ∀ page, ¬ (start_page f ≤ page ≤ end_page f
                           ∧ start_page g ≤ page ≤ end_page g)).
Proof.
  intros segs. destruct (build_segments_ordered labels) as [Hord Hfree].
  fold segs in Hord, Hfree.
  assert (Hse : ∀ f, f ∈ segs → start_page f ≤ end_page f).
  { intros f Hf. by destruct (ordered_bounds _ _ _ Hord Hf) as (_ & ? & _). }
  split; [|split].
  - intros f Hf. destruct (ordered_bounds _ _ _ Hord Hf) as (? & ? & ?). lia.
  - intros i j f g Hij Hi Hj.
    pose proof (ordered_lookup _ _ _ _ _ _ Hord Hij Hi Hj).
    apply list_elem_of_lookup_2 in Hi. apply Hse in Hi. lia.
  - intros i j f g Hij Hi Hj page.
    destruct (Nat.lt_trichotomy i j) as [Hlt|[->|Hlt]]; [|done|].
    + pose proof (ordered_lookup _ _ _ _ _ _ Hord Hlt Hi Hj). lia.
    + pose proof (ordered_lookup _ _ _ _ _ _ Hord Hlt Hj Hi). lia.
Qed.

Lemma segments_ordered_disjoint_witness :
  start_page (Form "1040f" 1 2) < start_page (Form "f8889" 3 4).
Proof.
  destruct (segments_ordered_disjoint
              [Some "1040f"; Some "1040f"; Some "f8889"; Some "f8889"])
    as (_ & H & _).
  apply (H 0%nat 1%nat); [lia|reflexivity|reflexivity].
Defined.

Example segments_of_a_mixed_stream :
  build_segments [None; Some "f8879"; None; Some "1040f"; Some "1040f";
                  Some "f1040sc"; None]
  = [Form "f8879" 2 3; Form "1040f" 4 5; Form "f1040sc" 6 7].
Proof. by vm_compute. Qed.

(* ===================================================================== *)
(** * Part 7: the Scorer, per document                                   *)
(* ===================================================================== *)

Lemma len_filter_distinct (P : form → Prop) `{!∀ r, Decision (P r)}
    (a : list form) (X : gset form) :
  (∀ r, r ∈ X ↔ r ∈ a ∧ P r) →
  len X = Z.of_nat (length (filter P (remove_dups a))).
Proof.
  intros HX. unfold len. f_equal.
  assert (X = list_to_set (filter P (remove_dups a))) as ->.
  { apply set_eq. intros r.
    rewrite HX, elem_of_list_to_set, list_elem_of_filter, elem_of_remove_dups.
    tauto. }
  apply size_list_to_set, NoDup_filter, NoDup_remove_dups.
Qed.

Lemma calculate_metrics_counts predicted truth :
  calculate_metrics_for_file predicted truth
  = Metrics (count_distinct_in predicted truth)
            (count_distinct_not_in predicted truth)
            (count_distinct_not_in truth predicted).
Proof.
  unfold calculate_metrics_for_file, count_distinct_in, count_distinct_not_in.
  f_equal; apply len_filter_distinct; intros r; set_solver.
Qed.

Lemma calculate_metrics_same_elements predicted predicted' truth truth' :
  (∀ r, r ∈ predicted ↔ r ∈ predicted') →
  (∀ r, r ∈ truth ↔ r ∈ truth') →
  calculate_metrics_for_file predicted truth
  = calculate_metrics_for_file predicted' truth'.
Proof.
  intros Hp Ht. unfold calculate_metrics_for_file.
  assert (list_to_set predicted =@{gset form} list_to_set predicted') as ->
    by (apply set_eq; intros r; rewrite !elem_of_list_to_set; apply Hp).
  assert (list_to_set truth =@{gset form} list_to_set truth') as ->
    by (apply set_eq; intros r; rewrite !elem_of_list_to_set; apply Ht).
  done.
Qed.

Lemma calculate_metrics_singletons r r' :
  calculate_metrics_for_file [r] [r']
  = if decide (r = r') then Metrics 1 0 0 else Metrics 0 1 1.
Proof.
  unfold calculate_metrics_for_file, len.
  destruct (decide (r = r')) as [->|Hne].
  - assert (list_to_set [r'] ∩ list_to_set [r'] =@{gset form} {[r']}) as ->
      by set_solver.
    assert (list_to_set [r'] ∖ list_to_set [r'] =@{gset form} ∅) as ->
      by set_solver.
    by rewrite size_singleton, size_empty.
  - assert (list_to_set [r] ∩ list_to_set [r'] =@{gset form} ∅) as ->
      by set_solver.
    assert (list_to_set [r] ∖ list_to_set [r'] =@{gset form} {[r]}) as ->
      by set_solver.
    assert (list_to_set [r'] ∖ list_to_set [r] =@{gset form} {[r']}) as ->
      by set_solver.
    by rewrite !size_singleton, size_empty.
Qed.

(** C2. [calculate_metrics_for_file] returns the sizes of the intersection
    and of the two differences of the sets of predicted and ground-truth
    records: tp is the number of distinct predicted records that occur in
    the truth, fp the number of those that do not, fn the number of
    distinct truth records that are not predicted. Membership is equality
    of all three fields. Only the records present matter, not their
    multiplicity or order, so duplicates count once. A predicted record
    and a truth record that differ in a field give tp = 0, fp = 1,
    fn = 1. *)
Theorem calculate_metrics_exact_sets (predicted ground_truth : list form) :
  calculate_metrics_for_file predicted ground_truth
  = Metrics (count_distinct_in predicted ground_truth)
            (count_distinct_not_in predicted ground_truth)
            (count_distinct_not_in ground_truth predicted)
  ∧ (∀ r r', r = r' ↔ document_type r = document_type r'
                      ∧ start_page r = start_page r'
                      ∧ end_page r = end_page r')
  ∧ (∀ predicted' ground_truth',
       (∀ r, r ∈ predicted ↔ r ∈ predicted') →
       (∀ r, r ∈ ground_truth ↔ r ∈ ground_truth') →
       calculate_metrics_for_file predicted ground_truth
       = calculate_metrics_for_file predicted' ground_truth')
  ∧ (∀ r, r ∈ predicted →
       calculate_metrics_for_file (r :: predicted) ground_truth
       = calculate_metrics_for_file predicted ground_truth)
  ∧ (∀ r, calculate_metrics_for_file [r] [r] = Metrics 1 0 0)
  ∧ (∀ r r', r ≠ r' → calculate_metrics_for_file [r] [r'] = Metrics 0 1 1).
Proof.
  split; [apply calculate_metrics_counts|].
  split; [intros [] []; cbn; split; [by intros [= -> -> ->]|
                                     by intros (-> & -> & ->)]|].
  split; [intros; by apply calculate_metrics_same_elements|].
  split; [intros r Hr; apply calculate_metrics_same_elements; set_solver|].
  split.
  - intros r. rewrite calculate_metrics_singletons. by rewrite decide_True.
  - intros r r' Hne. rewrite calculate_metrics_singletons.
    by rewrite decide_False.
Qed.

Lemma calculate_metrics_exact_sets_witness :
  calculate_metrics_for_file [Form "X" 1 3] [Form "X" 1 4] = Metrics 0 1 1.
Proof.
  destruct (calculate_metrics_exact_sets [Form "X" 1 3] [Form "X" 1 4])
    as (_ & _ & _ & _ & _ & H).
  apply H. discriminate.
Defined.

Example scoring_exactness :
  calculate_metrics_for_file [Form "X" 1 3] [Form "X" 1 3] = Metrics 1 0 0
  ∧ calculate_metrics_for_file [Form "X" 1 3] [Form "X" 1 4] = Metrics 0 1 1
  ∧ calculate_metrics_for_file [Form "X" 1 3; Form "X" 1 3; Form "Y" 4 4]
                               [Form "X" 1 3; Form "Z" 5 6; Form "Z" 5 6]
    = Metrics 1 1 1.
Proof. by vm_compute. Qed.

(* ===================================================================== *)
(** * Part 8: single-document mode                                       *)
(* ===================================================================== *)

(** C10. [main] returns [None], after printing the notice, exactly when
    [find_tax_forms_in_pdf] returns no form at all, which is the case of
    an unreadable document as well as of a readable one without any
    recognised page; it returns the empty list exactly when forms were
    found and none of them is of a desired type. *)
Theorem main_none_or_filtered (fitz_open : string → opened)
    (pdf_file_path : string) :
  let found := (find_tax_forms_in_pdf fitz_open pdf_file_path).2 in
  let out := (find_tax_forms_in_pdf fitz_open pdf_file_path).1 in
  let notice := "No tax forms could be identified in the document." in
  ((ParseMain.main fitz_open pdf_file_path).2 = None ↔ found = [])
  ∧ (found = [] →
       (ParseMain.main fitz_open pdf_file_path).1 = (out ++ [notice])%list)
  ∧ (found ≠ [] →
       ParseMain.main fitz_open pdf_file_path
       = (out, Some (filter desired found)))
  ∧ ((ParseMain.main fitz_open pdf_file_path).2 = Some []
     ↔ found ≠ [] ∧ Forall (λ f, ¬ desired f) found)
  ∧ (∀ e, fitz_open pdf_file_path = OpenError e →
          (ParseMain.main fitz_open pdf_file_path).2 = None)
  ∧ (∀ pages, fitz_open pdf_file_path = Document pages →
              Forall (λ text, identify_form_on_page text = None) pages →
              (ParseMain.main fitz_open pdf_file_path).2 = None).
Proof.
  intros found out notice. subst found out. unfold ParseMain.main.
  destruct (find_tax_forms_in_pdf fitz_open pdf_file_path)
    as [out found] eqn:Hfind.
  cbn [fst snd].
  assert (Hfilter : ∀ l : list form,
             filter desired l = [] ↔ Forall (λ f, ¬ desired f) l).
  { intros l. induction l as [|f l IH]; [by split; [constructor|]|].
    rewrite filter_cons. destruct (decide (desired f)) as [Hd|Hd].
    - split; [done|]. intros Hall. by inversion Hall.
    - rewrite IH. split; [by constructor|]. intros Hall. by inversion Hall. }
  split; [by destruct found|].
  split; [by intros ->|].
  split; [by destruct found|].
  split.
  { destruct found as [|f found]; cbn [snd].
    - split; [done|]. by intros [? _].
    - rewrite <- Hfilter. split.
      + intros [= Heq]. done.
      + intros [_ Heq]. by rewrite Heq. }
  unfold find_tax_forms_in_pdf in Hfind. split.
  - intros e He. rewrite He in Hfind. by injection Hfind as <- <-.
  - intros pages Hpages Hnone. rewrite Hpages in Hfind.
    injection Hfind as <- <-.
    assert (Hloop : ∀ (ps : list string) n st,
               Forall (λ text, identify_form_on_page text = None) ps →
               page_loop (map identify_form_on_page ps) n st = st).
    { intros ps. induction ps as [|t ps IH]; intros n st Hall; [done|].
      inversion Hall as [|?? Ht Hps]; subst. cbn [map page_loop].
      rewrite Ht, page_step_none. by apply IH. }
    unfold build_segments. by rewrite Hloop.
Qed.

Lemma main_none_or_filtered_witness :
  (ParseMain.main (fitz_open sample_world) "pdfs/b.pdf").2 = None.
Proof.
  destruct (main_none_or_filtered (fitz_open sample_world) "pdfs/b.pdf")
    as (_ & _ & _ & _ & H & _).
  apply (H "cannot open broken document"). reflexivity.
Defined.

Example main_three_outcomes :
  let fitz_open := λ path,
    if String.eqb path "broken.pdf" then OpenError "cannot open file"
    else if String.eqb path "letter.pdf" then Document ["Dear taxpayer"]
    else if String.eqb path "esign.pdf" then Document ["Form 8879"; ""]
    else Document ["Form 1040"; ""; "Form 8879"] in
  (ParseMain.main fitz_open "broken.pdf").2 = None
  ∧ (ParseMain.main fitz_open "letter.pdf").2 = None
  ∧ (ParseMain.main fitz_open "esign.pdf").2 = Some []
  ∧ (ParseMain.main fitz_open "return.pdf").2 = Some [Form "1040f" 1 2].
Proof. by vm_compute. Qed.

(* ===================================================================== *)
(** * Part 9: corpus evaluation                                          *)
(* ===================================================================== *)

Lemma sum_with_cons (f : metrics → Z) (m : metrics) (ms : list metrics) :
  sum_with f (m :: ms) = f m + sum_with f ms.
Proof. done. Qed.

Lemma omap_cons {A B : Type} (f : A → option B) (x : A) (l : list A) :
  omap f (x :: l)
  = match f x with Some y => y :: omap f l | None => omap f l end.
Proof. done. Qed.

Section Corpus.
Variable w : world.
Variables pdf_dir ground_truth_dir : string.

Local Abbreviation scored_file := (scored w pdf_dir ground_truth_dir).
Local Abbreviation eval_file :=
  (evaluate_file w pdf_dir ground_truth_dir).
Local Abbreviation eval_loop :=
  (evaluate_loop w pdf_dir ground_truth_dir).
Local Abbreviation eval_files :=
  (evaluate_files w pdf_dir ground_truth_dir).

Lemma evaluate_file_skipped pdf_filename acc :
  scored_file pdf_filename = None →
  total_tp (eval_file pdf_filename acc) = total_tp acc
  ∧ total_fp (eval_file pdf_filename acc) = total_fp acc
  ∧ total_fn (eval_file pdf_filename acc) = total_fn acc
  ∧ per_file (eval_file pdf_filename acc) = per_file acc.
Proof.
  unfold scored, evaluate_file, json_path_of.
  by destruct (os_path_exists _).
Qed.

Lemma evaluate_file_scored pdf_filename acc m :
  scored_file pdf_filename = Some m →
  total_tp (eval_file pdf_filename acc) = total_tp acc + tp m
  ∧ total_fp (eval_file pdf_filename acc) = total_fp acc + fp m
  ∧ total_fn (eval_file pdf_filename acc) = total_fn acc + fn m
  ∧ per_file (eval_file pdf_filename acc)
    = dict_set pdf_filename m (per_file acc)
  ∧ printed (eval_file pdf_filename acc)
    = (printed acc
       ++ (find_tax_forms_in_pdf (fitz_open w) (pdf_path_of w pdf_dir pdf_filename)).1)%list.
Proof.
  unfold scored, evaluate_file, json_path_of, pdf_path_of.
  destruct (os_path_exists _); [|done].
  destruct (find_tax_forms_in_pdf _ _) as [out predicted].
  by intros [= <-].
Qed.

Lemma evaluate_loop_totals pdf_files acc :
  total_tp (eval_loop pdf_files acc)
  = total_tp acc + sum_with tp (omap scored_file pdf_files)
  ∧ total_fp (eval_loop pdf_files acc)
    = total_fp acc + sum_with fp (omap scored_file pdf_files)
  ∧ total_fn (eval_loop pdf_files acc)
    = total_fn acc + sum_with fn (omap scored_file pdf_files).
Proof.
  revert acc. induction pdf_files as [|f pdf_files IH]; intros acc.
  - unfold sum_with. cbn. lia.
  - unfold evaluate_loop in *. cbn [foldl].
    destruct (IH (eval_file f acc)) as (-> & -> & ->).
    rewrite (omap_cons scored_file f pdf_files).
    destruct (scored_file f) as [m|] eqn:Hf.
    + destruct (evaluate_file_scored f acc m Hf) as (-> & -> & -> & _).
      rewrite !sum_with_cons. lia.
    + destruct (evaluate_file_skipped f acc Hf) as (-> & -> & -> & _).
      done.
Qed.

Lemma evaluate_files_totals pdf_files :
  overall_metrics (eval_files pdf_files).2
  = micro_average (sum_with tp (omap scored_file pdf_files))
                  (sum_with fp (omap scored_file pdf_files))
                  (sum_with fn (omap scored_file pdf_files)).
Proof.
  unfold evaluate_files. cbn [snd overall_metrics].
  destruct (evaluate_loop_totals pdf_files (Totals 0 0 0 [] []))
    as (-> & -> & ->).
  done.
Qed.

End Corpus.

Lemma sum_with_perm (f : metrics → Z) (ms ms' : list metrics) :
  ms ≡ₚ ms' → sum_with f ms = sum_with f ms'.
Proof.
  unfold sum_with.
  induction 1 as [|m ms ms' _ IH|m m' ms|ms ms' ms'' _ IH1 _ IH2]; cbn;
    [done|by rewrite IH|lia|by rewrite IH1].
Qed.

Lemma sum_with_nonneg (f : metrics → Z) (ms : list metrics) :
  Forall (λ m, 0 ≤ f m) ms → 0 ≤ sum_with f ms.
Proof. unfold sum_with. induction 1; cbn; lia. Qed.

Example sample_corpus_report :
  let '(out, result) := evaluate_parser_accuracy sample_world "pdfs" "truth" in
  out = ["Found 3 PDF files to evaluate.";
         "Error: Could not open or read PDF file at 'pdfs/b.pdf'. Reason: cannot open broken document";
         "Warning: No matching ground truth for 'c.PDF'. Skipping."]
  ∧ per_file_results <$> result
    = Some [("a.pdf", Metrics 2 0 1); ("b.pdf", Metrics 0 0 1)]
  ∧ total_true_positives <$> (overall_metrics <$> result) = Some 2
  ∧ total_false_positives <$> (overall_metrics <$> result) = Some 0
  ∧ total_false_negatives <$> (overall_metrics <$> result) = Some 2.
Proof. by vm_compute. Qed.

(** ** The allow-list *)

Lemma filter_desired_drop (pre post : list form) (s : form) :
  ¬ desired s →
  filter desired (pre ++ s :: post) = filter desired (pre ++ post).
Proof.
  intros Hs. rewrite !filter_app, filter_cons.
  by rewrite decide_False.
Qed.

Lemma filter_keep_all {A : Type} (P : A → Prop) `{!∀ x, Decision (P x)}
    (l : list A) :
  Forall P l → filter P l = l.
Proof.
  induction 1 as [|f l Hf _ IH]; [done|].
  by rewrite filter_cons, decide_True, IH.
Qed.

Lemma desired_of_filter (l : list form) (s : form) :
  s ∈ filter desired l → desired s.
Proof. rewrite list_elem_of_filter. tauto. Qed.

(** A ground-truth record that no prediction can equal adds one false
    negative and nothing else. *)
Lemma calculate_metrics_unmatched_truth predicted truth s :
  s ∉ predicted → s ∉ truth →
  calculate_metrics_for_file predicted (s :: truth)
  = let m := calculate_metrics_for_file predicted truth in
    Metrics (tp m) (fp m) (fn m + 1).
Proof.
  intros Hp Ht. unfold calculate_metrics_for_file, len. cbn [list_to_set].
  set (P := list_to_set predicted : gset form).
  set (T := list_to_set truth : gset form).
  assert (s ∉ P) by (subst P; by rewrite elem_of_list_to_set).
  assert (s ∉ T) by (subst T; by rewrite elem_of_list_to_set).
  cbn [foldr tp fp fn].
  assert (P ∩ ({[s]} ∪ T) = P ∩ T) as -> by set_solver.
  assert (P ∖ ({[s]} ∪ T) = P ∖ T) as -> by set_solver.
  assert (({[s]} ∪ T) ∖ P = {[s]} ∪ T ∖ P) as -> by set_solver.
  rewrite (size_union (C:=gset form) {[s]} (T ∖ P)) by set_solver.
  rewrite size_singleton. f_equal. lia.
Qed.

(** The specification's reading of C6 fails: a ground-truth segment of a
    type outside the allow-list stays in the truth set. Here the parser
    finds exactly the Form 8879 segment that the ground truth lists; the
    prediction is filtered out and the truth record is counted as a
    false negative. *)
Lemma truth_outside_allow_list_is_counted :
  ¬ desired (Form "f8879" 3 3)
  ∧ score_file [Form "f8879" 3 3] [Form "f8879" 3 3] = Metrics 0 0 1
  ∧ score_file_both_filtered [Form "f8879" 3 3] [Form "f8879" 3 3]
    = Metrics 0 0 0
  ∧ scored sample_world "pdfs" "truth" "a.pdf" = Some (Metrics 2 0 1)
  ∧ total_false_negatives
      (overall_metrics (evaluate_files sample_world "pdfs" "truth" ["a.pdf"]).2)
    = 1.
Proof. split; [by vm_compute|by vm_compute]. Qed.

(** C6 (amended). In corpus evaluation the predictions are restricted to
    the desired types before scoring, so a predicted segment of another
    type contributes nothing to tp, fp or fn. The ground truth is taken
    as it is loaded: when all its segments are of desired types the
    comparison is between two allow-listed sets, and a ground-truth
    segment of another type, which no kept prediction can equal, counts
    as one false negative. *)
Theorem predictions_outside_allow_list_ignored (w : world)
    (pdf_dir ground_truth_dir pdf_filename : string) (acc : totals) :
  let json_path := json_path_of w ground_truth_dir pdf_filename in
  let predicted :=
    (find_tax_forms_in_pdf (fitz_open w) (pdf_path_of w pdf_dir pdf_filename)).2 in
  let truth := json_load w json_path in
  let acc' := evaluate_file w pdf_dir ground_truth_dir pdf_filename acc in
  os_path_exists w json_path = true →
  (let m := calculate_metrics_for_file (filter desired predicted) truth in
   total_tp acc' = total_tp acc + tp m
   ∧ total_fp acc' = total_fp acc + fp m
   ∧ total_fn acc' = total_fn acc + fn m)
  ∧ (∀ pre s post gt, ¬ desired s →
       score_file (pre ++ s :: post) gt = score_file (pre ++ post) gt)
  ∧ (Forall desired truth →
       score_file predicted truth = score_file_both_filtered predicted truth)
  ∧ (∀ s gt, ¬ desired s → s ∉ gt →
       score_file predicted (s :: gt)
       = let m := score_file predicted gt in
         Metrics (tp m) (fp m) (fn m + 1)).
Proof.
  intros json_path predicted truth acc' Hexists.
  split; [|split; [|split]].
  - assert (Hs : scored w pdf_dir ground_truth_dir pdf_filename
                 = Some (score_file predicted truth)).
    { unfold scored. fold json_path. by rewrite Hexists. }
    destruct (evaluate_file_scored w pdf_dir ground_truth_dir pdf_filename
                acc _ Hs) as (H1 & H2 & H3 & _).
    done.
  - intros pre s post gt Hs. unfold score_file.
    by rewrite filter_desired_drop.
  - intros Hall. unfold score_file, score_file_both_filtered.
    by rewrite (filter_keep_all desired truth).
  - intros s gt Hs Hgt. unfold score_file.
    apply calculate_metrics_unmatched_truth; [|done].
    intros Hin. by apply desired_of_filter in Hin.
Qed.

Lemma predictions_outside_allow_list_ignored_witness :
  let acc' := evaluate_file sample_world "pdfs" "truth" "a.pdf"
                            (Totals 0 0 0 [] []) in
  total_tp acc' = 2 ∧ total_fp acc' = 0 ∧ total_fn acc' = 1.
Proof.
  destruct (predictions_outside_allow_list_ignored sample_world
              "pdfs" "truth" "a.pdf" (Totals 0 0 0 [] []))
    as [H _]; [by vm_compute|].
  exact H.
Defined.

(** ** Order of the documents *)

Lemma omap_scored_perm (w : world) (pdf_dir ground_truth_dir : string)
    (pdf_files pdf_files' : list string) :
  pdf_files ≡ₚ pdf_files' →
  omap (scored w pdf_dir ground_truth_dir) pdf_files
  ≡ₚ omap (scored w pdf_dir ground_truth_dir) pdf_files'.
Proof. intros Hperm. by rewrite Hperm. Qed.

Lemma scored_with_listdir (w : world) (listdir : string → list string)
    (pdf_dir ground_truth_dir pdf_filename : string) :
  scored (with_listdir w listdir) pdf_dir ground_truth_dir pdf_filename
  = scored w pdf_dir ground_truth_dir pdf_filename.
Proof. done. Qed.

(** C8. The corpus totals are the sums of the per-document records of the
    scored documents, and they, and with them precision, recall and f1,
    do not depend on the order in which the documents are processed:
    permuting the list of PDF files, or the directory listing it is drawn
    from, leaves the overall metrics unchanged. *)
Theorem corpus_totals_order_independent (w : world)
    (pdf_dir ground_truth_dir : string) (pdf_files pdf_files' : list string)
    (Hperm : pdf_files ≡ₚ pdf_files') :
  let run := evaluate_files w pdf_dir ground_truth_dir in
  let records := omap (scored w pdf_dir ground_truth_dir) in
  (total_tp (run pdf_files).1 = sum_with tp (records pdf_files)
   ∧ total_fp (run pdf_files).1 = sum_with fp (records pdf_files)
   ∧ total_fn (run pdf_files).1 = sum_with fn (records pdf_files))
  ∧ records pdf_files ≡ₚ records pdf_files'
  ∧ (total_tp (run pdf_files).1 = total_tp (run pdf_files').1
     ∧ total_fp (run pdf_files).1 = total_fp (run pdf_files').1
     ∧ total_fn (run pdf_files).1 = total_fn (run pdf_files').1)
  ∧ overall_metrics (run pdf_files).2 = overall_metrics (run pdf_files').2
  ∧ (∀ listdir,
       listdir pdf_dir ≡ₚ os_listdir w pdf_dir →
       overall_metrics
         <$> (evaluate_parser_accuracy (with_listdir w listdir)
                                       pdf_dir ground_truth_dir).2
       = overall_metrics
           <$> (evaluate_parser_accuracy w pdf_dir ground_truth_dir).2).
Proof.
  intros run records. subst run records.
  pose proof (omap_scored_perm w pdf_dir ground_truth_dir _ _ Hperm) as Hrec.
  assert (Htot : ∀ files,
            total_tp (evaluate_files w pdf_dir ground_truth_dir files).1
            = sum_with tp (omap (scored w pdf_dir ground_truth_dir) files)
            ∧ total_fp (evaluate_files w pdf_dir ground_truth_dir files).1
              = sum_with fp (omap (scored w pdf_dir ground_truth_dir) files)
            ∧ total_fn (evaluate_files w pdf_dir ground_truth_dir files).1
              = sum_with fn (omap (scored w pdf_dir ground_truth_dir) files)).
  { intros files. unfold evaluate_files. cbn [fst].
    destruct (evaluate_loop_totals w pdf_dir ground_truth_dir files
                (Totals 0 0 0 [] [])) as (-> & -> & ->).
    done. }
  assert (Hover : ∀ w' files files',
            (∀ f, scored w' pdf_dir ground_truth_dir f
                  = scored w pdf_dir ground_truth_dir f) →
            files ≡ₚ files' →
            overall_metrics (evaluate_files w' pdf_dir ground_truth_dir files).2
            = overall_metrics
                (evaluate_files w pdf_dir ground_truth_dir files').2).
  { intros w' files files' Hsc Hp. rewrite !evaluate_files_totals.
    assert (omap (scored w' pdf_dir ground_truth_dir) files
            = omap (scored w pdf_dir ground_truth_dir) files) as ->.
    { clear Hp. induction files as [|f files IH]; [done|].
      by rewrite !omap_cons, Hsc, IH. }
    pose proof (omap_scored_perm w pdf_dir ground_truth_dir _ _ Hp) as Hr.
    by rewrite !(sum_with_perm _ _ _ Hr). }
  split; [apply Htot|]. split; [done|]. split; [|split].
  - destruct (Htot pdf_files) as (-> & -> & ->).
    destruct (Htot pdf_files') as (-> & -> & ->).
    by rewrite !(sum_with_perm _ _ _ Hrec).
  - by apply Hover.
  - intros listdir Hlist. unfold evaluate_parser_accuracy.
    cbn [os_listdir with_listdir].
    assert (Hfilter : filter (λ f, is_pdf_name f = true) (listdir pdf_dir)
                      ≡ₚ filter (λ f, is_pdf_name f = true)
                                (os_listdir w pdf_dir))
      by (by rewrite Hlist).
    pose proof (Hover (with_listdir w listdir) _ _
                  (scored_with_listdir w listdir pdf_dir ground_truth_dir)
                  Hfilter) as Heq.
    destruct (filter _ (listdir pdf_dir)) as [|f files] eqn:Hf;
      destruct (filter _ (os_listdir w pdf_dir)) as [|f' files'] eqn:Hf'.
    + done.
    + by apply Permutation_nil_cons in Hfilter.
    + symmetry in Hfilter. by apply Permutation_nil_cons in Hfilter.
    + destruct (evaluate_files (with_listdir w listdir) _ _ _) as [a r].
      destruct (evaluate_files w _ _ _) as [a' r'].
      cbn in *. by rewrite Heq.
Qed.

Lemma corpus_totals_order_independent_witness :
  overall_metrics
    (evaluate_files sample_world "pdfs" "truth" ["a.pdf"; "b.pdf"; "c.PDF"]).2
  = overall_metrics
      (evaluate_files sample_world "pdfs" "truth" ["c.PDF"; "b.pdf"; "a.pdf"]).2.
Proof.
  apply (corpus_totals_order_independent sample_world "pdfs" "truth"
           ["a.pdf"; "b.pdf"; "c.PDF"] ["c.PDF"; "b.pdf"; "a.pdf"]).
  apply (bool_decide_unpack _). by vm_compute.
Defined.

Example aggregation_of_two_documents :
  sum_with tp [Metrics 2 1 0; Metrics 0 0 3] = 2
  ∧ sum_with fp [Metrics 2 1 0; Metrics 0 0 3] = 1
  ∧ sum_with fn [Metrics 2 1 0; Metrics 0 0 3] = 3
  ∧ sum_with fn [Metrics 0 0 3; Metrics 2 1 0] = 3.
Proof. by vm_compute. Qed.

(** ** Documents that cannot be opened *)





(* ===================================================================== *)
(** * Part 10: the micro-averaged metrics                                *)
(* ===================================================================== *)

Lemma iter_pos_invariant {A : Type} (P : A → Prop) (f : A → A) :
  (∀ x, P x → P (f x)) → ∀ p x, P x → P (SpecFloat.iter_pos f p x).
Proof.
  intros Hf p. induction p as [p IH|p IH|]; intros x Hx; cbn; auto.
Qed.

Lemma shr_1_nonneg mrs : 0 ≤ shr_m mrs → 0 ≤ shr_m (shr_1 mrs).
Proof.
  destruct mrs as [m r s]. cbn. destruct m as [|[p|p|]|[p|p|]]; cbn; lia.
Qed.

Lemma shr_fexp_nonneg p e m ex lx :
  0 ≤ m → 0 ≤ shr_m (shr_fexp p e m ex lx).1.
Proof.
  intros Hm. unfold shr_fexp, shr.
  assert (H0 : 0 ≤ shr_m (shr_record_of_loc m lx))
    by (by destruct lx as [|[]]).
  destruct (fexp p e (Zdigits2 m + ex) - ex) as [|n|n]; cbn [fst]; [done| |done].
  by apply (iter_pos_invariant (λ mrs, 0 ≤ shr_m mrs) _ shr_1_nonneg).
Qed.

Lemma round_nearest_even_nonneg m l : 0 ≤ m → 0 ≤ round_nearest_even m l.
Proof.
  intros Hm. unfold round_nearest_even.
  destruct l as [|[]]; [done| |done|lia].
  destruct (Z.even m); lia.
Qed.

Lemma binary_round_aux_nonneg p e m ex lx :
  0 ≤ m → nonneg_float (binary_round_aux p e false m ex lx).
Proof.
  intros Hm. unfold binary_round_aux.
  pose proof (shr_fexp_nonneg p e m ex lx Hm) as H1.
  destruct (shr_fexp p e m ex lx) as [mrs' e']. cbn [fst] in H1.
  pose proof (shr_fexp_nonneg p e
                (round_nearest_even (shr_m mrs') (loc_of_shr_record mrs'))
                e' loc_Exact (round_nearest_even_nonneg _ _ H1)) as H2.
  destruct (shr_fexp p e _ e' loc_Exact) as [mrs'' e'']. cbn [fst] in H2.
  destruct (shr_m mrs'') as [|q|q]; [done| |lia].
  by destruct (e'' <=? e - p).
Qed.

Lemma truediv_nonneg (a b : Z) :
  0 ≤ a → 0 < b → nonneg_float (Float.truediv a b).
Proof.
  intros Ha Hb. unfold Float.truediv.
  destruct b as [|b|b]; [lia| |lia].
  destruct a as [|a|a]; [done| |lia].
  cbn [Float.of_int SFdiv xorb]. unfold SFdiv_core_binary.
  set (e' := Z.min _ _). set (s := 0 - 0 - e').
  set (m' := match s with Z0 => _ | Zpos _ => _ | Zneg _ => _ end).
  assert (Hm' : 0 ≤ m').
  { subst m'. destruct s; [lia| |lia]. by apply Z.shiftl_nonneg. }
  pose proof (Z.div_pos m' (Z.pos b) Hm' ltac:(lia)) as Hq.
  unfold Z.div in Hq. destruct (Z.div_eucl m' (Z.pos b)) as [q r].
  by apply binary_round_aux_nonneg.
Qed.

Lemma add_nonneg (x y : spec_float) :
  nonneg_float x → nonneg_float y → nonneg_float (Float.add x y).
Proof.
  unfold Float.add.
  destruct x as [[]|[]| |[] mx ex], y as [[]|[]| |[] my ey]; try done.
  intros _ _. cbn [SFadd cond_Zopp].
  set (a := (shl_align mx ex _).1). set (b := (shl_align my ey _).1).
  change (Z.pos a + Z.pos b) with (Z.pos (a + b)).
  cbn [binary_normalize]. unfold binary_round.
  destruct (shl_align (a + b) _ _) as [mz ez].
  by apply binary_round_aux_nonneg.
Qed.

Lemma gt_zero_nonneg (x : spec_float) :
  nonneg_float x → Float.gt_zero x = negb (eq_zero x).
Proof. destruct x as [[]|[]| |[] m e]; by cbn. Qed.

(** The integer chosen by [nearest_even] is within one half of the exact
    product, and is even when it is exactly one half away. *)
Lemma nearest_even_spec (n e : Z) :
  e < 0 →
  let d := 2 ^ (- e) in
  let k := Float.nearest_even n e in
  Z.abs (2 * (k * d - n)) ≤ d
  ∧ (Z.abs (2 * (k * d - n)) = d → Z.even k = true).
Proof.
  intros He d k. subst k. unfold Float.nearest_even.
  destruct (Z.leb_spec 0 e) as [|_]; [lia|]. fold d.
  assert (Hd : 0 < d) by (subst d; apply Z.pow_pos_nonneg; lia).
  pose proof (Z.div_mod n d ltac:(lia)) as Hdm.
  pose proof (Z.mod_pos_bound n d Hd) as Hr.
  set (q := n / d) in *. set (r := n mod d) in *.
  destruct (Z.compare_spec (2 * r) d) as [Heq|Hlt|Hgt].
  - destruct (Z.even q) eqn:Hev.
    + split; [nia|done].
    + split; [nia|]. intros _. rewrite Z.even_add, Hev. done.
  - split; [nia|]. nia.
  - split; [nia|]. nia.
Qed.

Lemma calculate_metrics_nonneg predicted truth :
  let m := calculate_metrics_for_file predicted truth in
  0 ≤ tp m ∧ 0 ≤ fp m ∧ 0 ≤ fn m.
Proof. unfold calculate_metrics_for_file, len. cbn. lia. Qed.

Lemma scored_records_nonneg (w : world) (pdf_dir ground_truth_dir : string)
    (pdf_files : list string) (f : metrics → Z) :
  f = tp ∨ f = fp ∨ f = fn →
  0 ≤ sum_with f (omap (scored w pdf_dir ground_truth_dir) pdf_files).
Proof.
  intros Hf. apply sum_with_nonneg, Forall_forall. intros m Hm.
  apply list_elem_of_omap in Hm as (name & _ & Hs).
  unfold scored in Hs. destruct (os_path_exists _ _); [|done].
  injection Hs as <-. unfold score_file.
  pose proof (calculate_metrics_nonneg
                (filter desired
                   (find_tax_forms_in_pdf (fitz_open w)
                      (pdf_path_of w pdf_dir name)).2)
                (json_load w (json_path_of w ground_truth_dir name))) as Hn.
  cbn zeta in Hn. destruct Hf as [->|[->| ->]]; tauto.
Qed.

Lemma guarded_precision_nonneg (a b : Z) :
  0 ≤ a → 0 ≤ b → nonneg_float (guarded_precision a b).
Proof.
  intros Ha Hb. unfold guarded_precision.
  destruct (decide (a + b = 0)); [done|].
  apply truediv_nonneg; lia.
Qed.

Lemma micro_average_guarded (total_tp total_fp total_fn : Z) :
  0 ≤ total_tp → 0 ≤ total_fp → 0 ≤ total_fn →
  micro_average total_tp total_fp total_fn
  = Overall total_tp total_fp total_fn
      (Float.round4 (guarded_precision total_tp total_fp))
      (Float.round4 (guarded_recall total_tp total_fn))
      (Float.round4 (guarded_f1 (guarded_precision total_tp total_fp)
                                (guarded_recall total_tp total_fn))).
Proof.
  intros Htp Hfp Hfn. unfold micro_average.
  assert (Hguard : ∀ d, 0 ≤ d →
            (if 0 <? total_tp + d
             then Float.truediv total_tp (total_tp + d) else Float.zero)
            = guarded_precision total_tp d).
  { intros d Hd. unfold guarded_precision.
    destruct (Z.ltb_spec 0 (total_tp + d)), (decide (total_tp + d = 0));
      (done || lia). }
  rewrite !Hguard by done.
  change (guarded_precision total_tp total_fn)
    with (guarded_recall total_tp total_fn).
  set (p := guarded_precision total_tp total_fp).
  set (r := guarded_recall total_tp total_fn).
  assert (Hpr : nonneg_float (Float.add p r))
    by (apply add_nonneg; by apply guarded_precision_nonneg).
  do 3 f_equal. unfold guarded_f1. rewrite (gt_zero_nonneg _ Hpr).
  by destruct (eq_zero (Float.add p r)).
Qed.

(** C7. The corpus metrics are computed from the integer sums of the
    per-document tp, fp and fn: precision is tp/(tp+fp), recall is
    tp/(tp+fn) and f1 is 2·precision·recall/(precision+recall), each
    being 0.0 when its denominator is zero, so that all three are 0.0
    when tp = fp = fn = 0. The reported values are these quotients
    rounded to four decimals: the float nearest to k/10000, where k is
    the integer nearest (ties to even) to 10000 times the quotient. The
    three totals are reported as the exact integer sums. *)
Theorem micro_averaged_metrics (w : world)
    (pdf_dir ground_truth_dir : string) (pdf_files : list string) :
  let result :=
    overall_metrics (evaluate_files w pdf_dir ground_truth_dir pdf_files).2 in
  let records := omap (scored w pdf_dir ground_truth_dir) pdf_files in
  let TP := sum_with tp records in
  let FP := sum_with fp records in
  let FN := sum_with fn records in
  let p := guarded_precision TP FP in
  let r := guarded_recall TP FN in
  (total_true_positives result = TP
   ∧ total_false_positives result = FP
   ∧ total_false_negatives result = FN)
  ∧ (precision result = Float.round4 p
     ∧ recall result = Float.round4 r
     ∧ f1_score result = Float.round4 (guarded_f1 p r))
  ∧ (TP = 0 → FP = 0 → FN = 0 →
       precision result = Float.zero ∧ recall result = Float.zero
       ∧ f1_score result = Float.zero)
  ∧ (Float.round4 Float.zero = Float.zero
     ∧ ∀ m e,
         let k := Float.nearest_even (Z.pos m * 10000) e in
         Float.round4 (S754_finite false m e) = Float.truediv k 10000
         ∧ (0 ≤ e → k = Z.pos m * 10000 * 2 ^ e)
         ∧ (e < 0 →
              Z.abs (2 * (k * 2 ^ (- e) - Z.pos m * 10000)) ≤ 2 ^ (- e)
              ∧ (Z.abs (2 * (k * 2 ^ (- e) - Z.pos m * 10000)) = 2 ^ (- e)
                 → Z.even k = true))).
Proof.
  intros result records TP FP FN p r.
  assert (Hres : result
                 = Overall TP FP FN (Float.round4 p) (Float.round4 r)
                           (Float.round4 (guarded_f1 p r))).
  { subst result. rewrite evaluate_files_totals.
    apply micro_average_guarded; apply scored_records_nonneg; auto. }
  rewrite Hres. cbn [total_true_positives total_false_positives
                     total_false_negatives precision recall f1_score].
  split; [done|]. split; [done|]. split.
  - intros Htp Hfp Hfn. subst p r. rewrite Htp, Hfp, Hfn. by vm_compute.
  - split; [done|]. intros m e. split; [done|]. split.
    + intros He. unfold Float.nearest_even.
      by destruct (Z.leb_spec 0 e); [|lia].
    + intros He. apply (nearest_even_spec (Z.pos m * 10000) e He).
Qed.

Lemma micro_averaged_metrics_witness :
  let result :=
    overall_metrics (evaluate_files sample_world "pdfs" "truth" ["c.PDF"]).2 in
  precision result = Float.zero ∧ recall result = Float.zero
  ∧ f1_score result = Float.zero.
Proof.
  destruct (micro_averaged_metrics sample_world "pdfs" "truth" ["c.PDF"])
    as (_ & _ & H & _).
  apply H; reflexivity.
Defined.

Example aggregation_metrics :
  micro_average 2 1 3
  = Overall 2 1 3 (Float.truediv 6667 10000) (Float.truediv 4 10)
            (Float.truediv 1 2)
  ∧ micro_average 0 0 0 = Overall 0 0 0 Float.zero Float.zero Float.zero
  ∧ precision (micro_average 0 4 0) = Float.zero
  ∧ recall (micro_average 0 0 4) = Float.zero
  ∧ Float.round4 (Float.truediv 1 8) = Float.truediv 125 1000
  ∧ Float.round4 (Float.truediv 1 20000) = Float.truediv 1 10000.
Proof. by vm_compute. Qed.

(* ===================================================================== *)
(** * Part 11: further properties of the Segment Builder                 *)
(* ===================================================================== *)

Lemma finish_page_loop_tracked labels n len_doc found cur :
  finish len_doc (page_loop labels n (found, Some cur))
  = found ++ runs_from cur n labels len_doc.
Proof.
  revert n found cur. induction labels as [|l labels IH]; intros n found cur.
  - done.
  - cbn [page_loop runs_from]. destruct l as [L|];
      [|rewrite page_step_none; apply IH].
    destruct (decide (L = "")) as [->|HL]; [apply IH|].
    rewrite truthy_some by done. cbn [andb].
    destruct (decide (L = tracked_type cur)) as [Heq|Hne].
    + rewrite page_step_same by done.
      rewrite bool_decide_eq_false_2 by tauto. apply IH.
    + rewrite page_step_other by done. rewrite bool_decide_eq_true_2 by done.
      rewrite IH, <- app_assoc. cbn. do 3 f_equal. lia.
Qed.

Lemma finish_page_loop_idle labels n len_doc found :
  finish len_doc (page_loop labels n (found, None))
  = found ++ runs n labels len_doc.
Proof.
  revert n. induction labels as [|l labels IH]; intros n.
  - cbn. by rewrite app_nil_r.
  - cbn [page_loop runs]. destruct l as [L|];
      [|rewrite page_step_none; apply IH].
    destruct (decide (L = "")) as [->|HL]; [apply IH|].
    rewrite truthy_some by done. rewrite page_step_open by done.
    apply finish_page_loop_tracked.
Qed.

Lemma build_segments_runs labels :
  build_segments labels = runs 0 labels (Z.of_nat (length labels)).
Proof. unfold build_segments. by rewrite finish_page_loop_idle. Qed.

(** The first segment to come is the tracked one, and it ends at page
    [n] or later. *)
Lemma runs_from_head cur n labels :
  ∃ e rest,
    runs_from cur n labels (n + Z.of_nat (length labels))
    = Form (tracked_type cur) (tracked_start cur) e :: rest
    ∧ n ≤ e.
Proof.
  revert cur n. induction labels as [|l labels IH]; intros cur n.
  - exists (n + Z.of_nat 0), []. cbn. split; [done|lia].
  - cbn [runs_from length].
    replace (n + Z.of_nat (S (length labels)))
      with (n + 1 + Z.of_nat (length labels)) by lia.
    destruct l as [L|].
    + destruct (truthy (Some L) && bool_decide (L ≠ tracked_type cur)).
      * exists n. eexists. split; [done|lia].
      * destruct (IH cur (n + 1)) as (e & rest & -> & He).
        exists e, rest. split; [done|lia].
    + destruct (IH cur (n + 1)) as (e & rest & -> & He).
      exists e, rest. split; [done|lia].
Qed.

Lemma runs_from_shape cur n labels len_doc :
  ∃ e rest,
    runs_from cur n labels len_doc
    = Form (tracked_type cur) (tracked_start cur) e :: rest.
Proof.
  revert cur n. induction labels as [|l labels IH]; intros cur n.
  - by exists len_doc, [].
  - cbn [runs_from]. destruct l as [L|]; [|apply IH].
    destruct (truthy (Some L) && bool_decide (L ≠ tracked_type cur));
      [by eexists _, _|apply IH].
Qed.

Lemma runs_from_covers cur n labels i L :
  tracked_start cur ≤ n →
  labels !! i = Some (Some L) → L ≠ "" →
  ∃ f, f ∈ runs_from cur n labels (n + Z.of_nat (length labels))
       ∧ document_type f = L
       ∧ start_page f ≤ n + Z.of_nat i + 1 ≤ end_page f.
Proof.
  revert cur n i. induction labels as [|l labels IH]; intros cur n i Hcur Hi HL.
  - done.
  - cbn [runs_from length].
    replace (n + Z.of_nat (S (length labels)))
      with (n + 1 + Z.of_nat (length labels)) by lia.
    destruct i as [|i]; cbn in Hi.
    + injection Hi as ->. rewrite truthy_some by done. cbn [andb].
      destruct (decide (L = tracked_type cur)) as [Heq|Hne].
      * rewrite bool_decide_eq_false_2 by tauto.
        destruct (runs_from_head cur (n + 1) labels) as (e & rest & -> & He).
        eexists. split; [by left|]. cbn. split; [done|lia].
      * rewrite bool_decide_eq_true_2 by done.
        destruct (runs_from_head (Tracked L (n + 1)) (n + 1) labels)
          as (e & rest & -> & He).
        eexists. split; [right; by left|]. cbn. split; [done|lia].
    + assert (Hstep : ∀ cur', tracked_start cur' ≤ n + 1 →
                ∃ f, f ∈ runs_from cur' (n + 1) labels
                           (n + 1 + Z.of_nat (length labels))
                     ∧ document_type f = L
                     ∧ start_page f ≤ n + Z.of_nat (S i) + 1 ≤ end_page f).
      { intros cur' Hcur'.
        destruct (IH cur' (n + 1) i Hcur' Hi HL) as (f & Hf & Ht & Hp).
        exists f. split; [done|]. split; [done|lia]. }
      destruct l as [L'|]; [|apply Hstep; lia].
      destruct (truthy (Some L') && bool_decide (L' ≠ tracked_type cur)).
      * destruct (Hstep (Tracked L' (n + 1))) as (f & Hf & Ht & Hp);
          [cbn; lia|].
        exists f. split; [by right|done].
      * apply Hstep; lia.
Qed.

Lemma runs_covers n labels i L :
  labels !! i = Some (Some L) → L ≠ "" →
  ∃ f, f ∈ runs n labels (n + Z.of_nat (length labels))
       ∧ document_type f = L
       ∧ start_page f ≤ n + Z.of_nat i + 1 ≤ end_page f.
Proof.
  revert n i. induction labels as [|l labels IH]; intros n i Hi HL; [done|].
  cbn [runs length].
  replace (n + Z.of_nat (S (length labels)))
    with (n + 1 + Z.of_nat (length labels)) by lia.
  destruct i as [|i]; cbn in Hi.
  - injection Hi as ->. rewrite truthy_some by done.
    destruct (runs_from_head (Tracked L (n + 1)) (n + 1) labels)
      as (e & rest & -> & He).
    eexists. split; [by left|]. cbn. split; [done|lia].
  - destruct l as [L'|].
    + destruct (truthy (Some L')).
      * destruct (runs_from_covers (Tracked L' (n + 1)) (n + 1) labels i L)
          as (f & Hf & Ht & Hp); [cbn; lia|done..|].
        exists f. split; [done|]. split; [done|lia].
      * destruct (IH (n + 1) i Hi HL) as (f & Hf & Ht & Hp).
        exists f. split; [done|]. split; [done|lia].
    + destruct (IH (n + 1) i Hi HL) as (f & Hf & Ht & Hp).
      exists f. split; [done|]. split; [done|lia].
Qed.

(** X1. Every page that carries a label lies inside an emitted segment of
    that label. *)
Theorem labelled_page_is_covered (labels : list (option string)) (i : nat)
    (L : string) :
  labels !! i = Some (Some L) → L ≠ "" →
  ∃ f, f ∈ build_segments labels
       ∧ document_type f = L
       ∧ start_page f ≤ Z.of_nat i + 1 ≤ end_page f.
Proof.
  intros Hi HL. rewrite build_segments_runs.
  destruct (runs_covers 0 labels i L Hi HL) as (f & Hf & Ht & Hp).
  exists f. split; [done|]. split; [done|lia].
Qed.

Lemma labelled_page_is_covered_witness :
  ∃ f, f ∈ build_segments [None; Some "1040f"; None; Some "f8889"; None]
       ∧ document_type f = "f8889"
       ∧ start_page f ≤ 4 ≤ end_page f.
Proof.
  apply (labelled_page_is_covered
           [None; Some "1040f"; None; Some "f8889"; None] 3 "f8889");
    [reflexivity|discriminate].
Defined.






Lemma runs_from_types cur n labels len_doc :
  map document_type (runs_from cur n labels len_doc)
  = tracked_type cur :: label_runs (Some (tracked_type cur)) labels.
Proof.
  revert cur n. induction labels as [|l labels IH]; intros cur n; [done|].
  cbn [runs_from label_runs]. destruct l as [L|]; [|apply IH].
  destruct (truthy (Some L)); cbn [andb]; [|apply IH].
  destruct (decide (L = tracked_type cur)) as [Heq|Hne].
  - rewrite !bool_decide_eq_false_2 by (intros H; apply H; congruence).
    apply IH.
  - rewrite !bool_decide_eq_true_2 by congruence.
    cbn [map]. by rewrite IH.
Qed.

(** X3. The types of the emitted segments, in order, are the labels of
    the stream with the unlabelled pages dropped and each run of equal
    labels reduced to one; so a document yields no segment exactly when
    none of its pages carries a label. *)
Theorem segment_types_are_label_runs (labels : list (option string)) :
  map document_type (build_segments labels) = label_runs None labels
  ∧ (build_segments labels = []
     ↔ Forall (λ form_type, truthy form_type = false) labels).
Proof.
  rewrite build_segments_runs.
  generalize (Z.of_nat (length labels)) as len_doc. intros len_doc.
  assert (Hgen : ∀ n,
    map document_type (runs n labels len_doc) = label_runs None labels
    ∧ (runs n labels len_doc = []
       ↔ Forall (λ form_type, truthy form_type = false) labels)).
  { induction labels as [|l labels IH]; intros n; [done|].
    cbn [runs label_runs]. destruct (IH (n + 1)) as [Hm He].
    assert (Hskip : truthy l = false →
              runs (n + 1) labels len_doc = []
              ↔ Forall (λ form_type, truthy form_type = false) (l :: labels)).
    { intros Hl. rewrite He. split; [by constructor|].
      intros Hall. by inversion Hall. }
    destruct l as [L|]; [|by split; [|apply Hskip]].
    destruct (truthy (Some L)) eqn:HL; cbn [andb];
      [|by split; [|apply Hskip]].
    rewrite bool_decide_eq_true_2 by done. split.
    - by rewrite runs_from_types.
    - destruct (runs_from_shape (Tracked L (n + 1)) (n + 1) labels len_doc)
        as (e & rest & ->).
      split; [done|]. intros Hall. inversion Hall; congruence. }
  apply (Hgen 0).
Qed.

Example label_runs_of_a_mixed_stream :
  label_runs None [None; Some "f8879"; None; Some "1040f"; Some "1040f";
                   Some "f8879"; None]
  = ["f8879"; "1040f"; "f8879"]
  ∧ build_segments [None; None] = [].
Proof. by vm_compute. Qed.

(* ===================================================================== *)
(** * Part 12: further properties of the Form Identifier                 *)
(* ===================================================================== *)



















Lemma scan_registry_some {Pattern Text : Type} (search : Pattern → Text → bool)
    (registry : list (Pattern * string)) (text : Text) (l : string) :
  (scan_registry search registry text).2 = Some l →
  ∃ p, (p, l) ∈ registry ∧ search p text = true.
Proof.
  induction registry as [|[p l'] rest IH]; [done|]. cbn.
  destruct (search p text) eqn:Hp.
  - intros [= <-]. exists p. split; [by left|done].
  - destruct (scan_registry search rest text) as [tried r]. cbn in *.
    intros Hr. destruct (IH Hr) as (q & Hq & Hm).
    exists q. split; [by right|done].
Qed.

Lemma lookup_shift {A : Type} (x : A) (l : list A) (z : Z) :
  0 ≤ z → (x :: l) !! Z.to_nat (z + 1) = l !! Z.to_nat z.
Proof. intros Hz. by rewrite Z2Nat.inj_add, Nat.add_1_r by lia. Qed.

(** A segment to come is the tracked one or starts on a later page that
    carries its type as label. *)
Lemma runs_from_starts cur n labels len_doc f :
  f ∈ runs_from cur n labels len_doc →
  (document_type f = tracked_type cur ∧ start_page f = tracked_start cur)
  ∨ (n < start_page f
     ∧ document_type f ≠ ""
     ∧ labels !! Z.to_nat (start_page f - n - 1)
       = Some (Some (document_type f))).
Proof.
  revert cur n. induction labels as [|l labels IH]; intros cur n Hf.
  - apply list_elem_of_singleton in Hf as ->. by left.
  - cbn [runs_from] in Hf.
    assert (Hkeep : f ∈ runs_from cur (n + 1) labels len_doc →
              (document_type f = tracked_type cur
               ∧ start_page f = tracked_start cur)
              ∨ (n < start_page f
                 ∧ document_type f ≠ ""
                 ∧ (l :: labels) !! Z.to_nat (start_page f - n - 1)
                   = Some (Some (document_type f)))).
    { intros Hin. destruct (IH _ _ Hin) as [|(Hlt & Hne & Hl)]; [by left|].
      right. split; [lia|]. split; [done|].
      replace (start_page f - n - 1) with (start_page f - (n + 1) - 1 + 1)
        by lia.
      rewrite lookup_shift by lia. done. }
    destruct l as [L|]; [|by apply Hkeep].
    destruct (truthy (Some L)) eqn:HL; cbn [andb] in Hf; [|by apply Hkeep].
    destruct (bool_decide (L ≠ tracked_type cur)); [|by apply Hkeep].
    apply elem_of_cons in Hf as [->|Hf]; [by left|].
    assert (HLne : L ≠ "").
    { intros ->. by cbn in HL. }
    destruct (IH _ _ Hf) as [[Ht Hs]|(Hlt & Hne & Hl)]; cbn in *.
    + right. split; [lia|]. rewrite Ht, Hs. split; [done|].
      by replace (n + 1 - n - 1) with 0 by lia.
    + right. split; [lia|]. split; [done|].
      replace (start_page f - n - 1) with (start_page f - (n + 1) - 1 + 1)
        by lia.
      rewrite lookup_shift by lia. done.
Qed.

Lemma runs_starts n labels len_doc f :
  f ∈ runs n labels len_doc →
  n < start_page f
  ∧ document_type f ≠ ""
  ∧ labels !! Z.to_nat (start_page f - n - 1) = Some (Some (document_type f)).
Proof.
  revert n. induction labels as [|l labels IH]; intros n Hf.
  - by apply elem_of_nil in Hf.
  - cbn [runs] in Hf.
    assert (Hskip : f ∈ runs (n + 1) labels len_doc →
              n < start_page f
              ∧ document_type f ≠ ""
              ∧ (l :: labels) !! Z.to_nat (start_page f - n - 1)
                = Some (Some (document_type f))).
    { intros Hin. destruct (IH _ Hin) as (Hlt & Hne & Hl).
      split; [lia|]. split; [done|].
      replace (start_page f - n - 1) with (start_page f - (n + 1) - 1 + 1)
        by lia.
      rewrite lookup_shift by lia. done. }
    destruct l as [L|]; [|by apply Hskip].
    destruct (truthy (Some L)) eqn:HL; [|by apply Hskip].
    assert (HLne : L ≠ "").
    { intros ->. by cbn in HL. }
    destruct (runs_from_starts _ _ _ _ _ Hf) as [[Ht Hs]|(Hlt & Hne & Hl)];
      cbn in *.
    + split; [lia|]. rewrite Ht, Hs. split; [done|].
      by replace (n + 1 - n - 1) with 0 by lia.
    + split; [lia|]. split; [done|].
      replace (start_page f - n - 1) with (start_page f - (n + 1) - 1 + 1)
        by lia.
      rewrite lookup_shift by lia. done.
Qed.

(** X6. Every form returned by [find_tax_forms_in_pdf] starts on a page
    whose text [identify_form_on_page] labels with the form's type, and
    that type is one of the labels of the registry. *)
Theorem found_forms_start_on_identified_pages (fitz_open : string → opened)
    (pdf_path : string) (pages : list string) (f : form) :
  fitz_open pdf_path = Document pages →
  f ∈ (find_tax_forms_in_pdf fitz_open pdf_path).2 →
  1 ≤ start_page f
  ∧ (∃ text, pages !! Z.to_nat (start_page f - 1) = Some text
             ∧ identify_form_on_page text = Some (document_type f))
  ∧ document_type f ∈ ALL_FORM_PATTERNS.*2.
Proof.
  intros Hopen. unfold find_tax_forms_in_pdf. rewrite Hopen. cbn [snd].
  rewrite build_segments_runs. intros Hf.
  destruct (runs_starts _ _ _ _ Hf) as (Hlt & _ & Hl).
  replace (start_page f - 0 - 1) with (start_page f - 1) in Hl by lia.
  rewrite list_lookup_fmap in Hl.
  destruct (pages !! Z.to_nat (start_page f - 1)) as [text|] eqn:Ht; [|done].
  injection Hl as Hid. split; [lia|]. split; [by exists text|].
  destruct (scan_registry_some Re.search ALL_FORM_PATTERNS text _ Hid)
    as (p & Hp & _).
  apply list_elem_of_fmap. by exists (p, document_type f).
Qed.

Lemma found_forms_start_on_identified_pages_witness :
  document_type (Form "f8879" 3 3) ∈ ALL_FORM_PATTERNS.*2.
Proof.
  destruct (found_forms_start_on_identified_pages (fitz_open sample_world)
              "pdfs/a.pdf"
              ["Form 1040"; "(continued)"; "Form 8879";
               "SCHEDULE C (Form 1040)"]
              (Form "f8879" 3 3)) as (_ & _ & H);
    [reflexivity| |exact H].
  apply (bool_decide_unpack _). by vm_compute.
Defined.

(* ===================================================================== *)
(** * Part 13: further properties of the Scorer                          *)
(* ===================================================================== *)

Lemma len_list_to_set (l : list form) :
  len (list_to_set l) = Z.of_nat (length (remove_dups l)).
Proof.
  unfold len. f_equal.
  assert (list_to_set l =@{gset form} list_to_set (remove_dups l)) as ->.
  { apply set_eq. intros r.
    by rewrite !elem_of_list_to_set, elem_of_remove_dups. }
  apply size_list_to_set, NoDup_remove_dups.
Qed.

Lemma size_split (X Y : gset form) :
  (size (X ∩ Y) + size (X ∖ Y))%nat = size X.
Proof.
  rewrite <- (size_union (C:=gset form)) by set_solver.
  f_equal. apply set_eq. intros r.
  rewrite elem_of_union, elem_of_intersection, elem_of_difference.
  destruct (decide (r ∈ Y)); tauto.
Qed.

(** X7. The counts split both sides: tp + fp is the number of distinct
    predicted records and tp + fn the number of distinct ground-truth
    records; exchanging the two lists exchanges fp and fn and keeps tp. *)
Theorem metrics_split_both_sides (predicted ground_truth : list form) :
  let m := calculate_metrics_for_file predicted ground_truth in
  tp m + fp m = Z.of_nat (length (remove_dups predicted))
  ∧ tp m + fn m = Z.of_nat (length (remove_dups ground_truth))
  ∧ calculate_metrics_for_file ground_truth predicted
    = Metrics (tp m) (fn m) (fp m).
Proof.
  cbn zeta. unfold calculate_metrics_for_file. cbn [tp fp fn].
  set (P := list_to_set predicted : gset form).
  set (T := list_to_set ground_truth : gset form).
  split; [|split].
  - rewrite <- len_list_to_set. fold P. unfold len.
    rewrite <- (size_split P T). lia.
  - rewrite <- len_list_to_set. fold T. unfold len.
    rewrite <- (size_split T P).
    assert (P ∩ T = T ∩ P) as -> by set_solver. lia.
  - by assert (P ∩ T = T ∩ P) as -> by set_solver.
Qed.

(** X8. There is neither a false positive nor a false negative exactly
    when the two lists contain the same records, whatever their order and
    multiplicities. *)
Theorem metrics_perfect_iff_same_records (predicted ground_truth : list form) :
  let m := calculate_metrics_for_file predicted ground_truth in
  fp m = 0 ∧ fn m = 0 ↔ ∀ r, r ∈ predicted ↔ r ∈ ground_truth.
Proof.
  cbn zeta. unfold calculate_metrics_for_file, len. cbn [fp fn].
  set (P := list_to_set predicted : gset form).
  set (T := list_to_set ground_truth : gset form).
  assert (HP : ∀ r, r ∈ P ↔ r ∈ predicted)
    by (intros r; subst P; apply elem_of_list_to_set).
  assert (HT : ∀ r, r ∈ T ↔ r ∈ ground_truth)
    by (intros r; subst T; apply elem_of_list_to_set).
  split.
  - intros [Hfp Hfn].
    assert (H1 : P ∖ T = ∅) by (apply leibniz_equiv, size_empty_iff; lia).
    assert (H2 : T ∖ P = ∅) by (apply leibniz_equiv, size_empty_iff; lia).
    intros r. rewrite <- HP, <- HT.
    destruct (decide (r ∈ P)), (decide (r ∈ T)); set_solver.
  - intros Hsame.
    assert (P ∖ T = ∅) as -> by (apply set_eq; intros r; set_solver).
    assert (T ∖ P = ∅) as -> by (apply set_eq; intros r; set_solver).
    by rewrite size_empty.
Qed.

(** X9. One more prediction, not made before, raises tp by one and lowers
    fn by one when it is a ground-truth record, and raises fp by one
    otherwise. *)
Theorem metrics_of_one_more_prediction (predicted ground_truth : list form)
    (r : form) :
  r ∉ predicted →
  let m := calculate_metrics_for_file predicted ground_truth in
  calculate_metrics_for_file (r :: predicted) ground_truth
  = if decide (r ∈ ground_truth)
    then Metrics (tp m + 1) (fp m) (fn m - 1)
    else Metrics (tp m) (fp m + 1) (fn m).
Proof.
  intros Hr. cbn zeta. unfold calculate_metrics_for_file, len.
  cbn [list_to_set tp fp fn].
  set (P := list_to_set predicted : gset form).
  set (T := list_to_set ground_truth : gset form).
  assert (HrP : r ∉ P) by (subst P; by rewrite elem_of_list_to_set).
  destruct (decide (r ∈ ground_truth)) as [Hin|Hnin].
  - assert (HrT : r ∈ T) by (subst T; by rewrite elem_of_list_to_set).
    assert (({[r]} ∪ P) ∩ T = {[r]} ∪ P ∩ T) as -> by set_solver.
    assert (({[r]} ∪ P) ∖ T = P ∖ T) as -> by set_solver.
    assert (Hfn : T ∖ P = {[r]} ∪ T ∖ ({[r]} ∪ P)).
    { apply set_eq. intros x.
      rewrite elem_of_union, !elem_of_difference, elem_of_union,
        elem_of_singleton.
      destruct (decide (x = r)) as [->|]; tauto. }
    rewrite Hfn.
    rewrite !(size_union (C:=gset form) {[r]}) by set_solver.
    rewrite size_singleton. f_equal; lia.
  - assert (HrT : r ∉ T) by (subst T; by rewrite elem_of_list_to_set).
    assert (({[r]} ∪ P) ∩ T = P ∩ T) as -> by set_solver.
    assert (({[r]} ∪ P) ∖ T = {[r]} ∪ P ∖ T) as -> by set_solver.
    assert (T ∖ ({[r]} ∪ P) = T ∖ P) as -> by set_solver.
    rewrite (size_union (C:=gset form) {[r]}) by set_solver.
    rewrite size_singleton. f_equal; lia.
Qed.

Lemma metrics_of_one_more_prediction_witness :
  calculate_metrics_for_file [Form "1040f" 1 2; Form "f8889" 3 4]
                             [Form "1040f" 1 2]
  = Metrics 1 1 0.
Proof.
  apply (metrics_of_one_more_prediction [Form "f8889" 3 4] [Form "1040f" 1 2]
           (Form "1040f" 1 2)).
  apply (bool_decide_unpack _). by vm_compute.
Defined.

(* ===================================================================== *)
(** * Part 14: further properties of single-document and corpus mode     *)
(* ===================================================================== *)

Lemma ordered_weaken lo lo' segs : lo ≤ lo' → ordered lo' segs → ordered lo segs.
Proof.
  destruct segs as [|f segs]; [done|]. cbn. intros ? (? & ? & ?).
  split; [lia|done].
Qed.

Lemma ordered_filter (P : form → Prop) `{!∀ f, Decision (P f)} lo segs :
  ordered lo segs → ordered lo (filter P segs).
Proof.
  revert lo. induction segs as [|f segs IH]; intros lo Hord; [done|].
  cbn in Hord. destruct Hord as (Hlo & Hse & Hrest).
  rewrite filter_cons. destruct (decide (P f)).
  - cbn. split; [done|]. split; [done|]. by apply IH.
  - apply IH. apply (ordered_weaken _ (end_page f + 1)); [lia|done].
Qed.

(** X10. The list [main] returns holds only forms of desired types, all
    taken from the forms found, still in ascending page order and without
    a shared page. *)
Theorem main_returns_desired_forms_in_order (fitz_open : string → opened)
    (pdf_file_path : string) (forms : list form) :
  (ParseMain.main fitz_open pdf_file_path).2 = Some forms →
  (∀ f, f ∈ forms ↔
        f ∈ (find_tax_forms_in_pdf fitz_open pdf_file_path).2 ∧ desired f)
  ∧ (∀ i j f g, (i < j)%nat → forms !! i = Some f → forms !! j = Some g →
                end_page f < start_page g).
Proof.
  unfold ParseMain.main, find_tax_forms_in_pdf.
  destruct (fitz_open pdf_file_path) as [e|pages]; [done|].
  cbn [snd]. set (found := build_segments _).
  pose proof (build_segments_ordered (map identify_form_on_page pages))
    as [Hord _].
  fold found in Hord. destruct found as [|f0 others] eqn:Hfound; [done|].
  cbn [snd]. intros [= <-]. split.
  - intros f. by rewrite list_elem_of_filter, (comm and).
  - intros i j f g. apply ordered_lookup with (lo := 1).
    by apply ordered_filter.
Qed.

Lemma main_returns_desired_forms_in_order_witness :
  end_page (Form "1040f" 1 2) < start_page (Form "f1040sc" 4 4).
Proof.
  destruct (main_returns_desired_forms_in_order (fitz_open sample_world)
              "pdfs/a.pdf" [Form "1040f" 1 2; Form "f1040sc" 4 4])
    as [_ H]; [reflexivity|].
  apply (H 0%nat 1%nat); [lia|reflexivity|reflexivity].
Defined.

Lemma truediv_zero (d : Z) : 0 < d → Float.truediv 0 d = Float.zero.
Proof. destruct d; [lia|done|lia]. Qed.

(** X11. Without a true positive the three reported metrics are exactly
    0.0, whatever the numbers of false positives and false negatives. *)
Theorem no_true_positive_gives_zero_metrics (total_fp total_fn : Z) :
  micro_average 0 total_fp total_fn
  = Overall 0 total_fp total_fn Float.zero Float.zero Float.zero.
Proof.
  unfold micro_average.
  assert (Hq : ∀ d, (if 0 <? 0 + d then Float.truediv 0 (0 + d)
                     else Float.zero) = Float.zero).
  { intros d. destruct (Z.ltb_spec 0 (0 + d)); [|done].
    apply truediv_zero. lia. }
  by rewrite !Hq.
Qed.

Lemma div_eucl_mul (a b : Z) : 0 < a → Z.div_eucl (b * a) a = (b, 0).
Proof.
  intros Ha.
  pose proof (Z.div_mul b a ltac:(lia)) as Hq.
  pose proof (Z.mod_mul b a ltac:(lia)) as Hr.
  unfold Z.div, Z.modulo in Hq, Hr.
  destruct (Z.div_eucl (b * a) a). congruence.
Qed.

Lemma truediv_self (m : positive) :
  Float.truediv (Z.pos m) (Z.pos m) = float_one.
Proof.
  unfold Float.truediv, Float.of_int, SFdiv, SFdiv_core_binary.
  replace (Zdigits2 (Z.pos m) + 0 - (Zdigits2 (Z.pos m) + 0)) with 0 by lia.
  change (Z.min (fexp Float.prec Float.emax 0) (0 - 0)) with (-53).
  change (0 - 0 - -53) with 53.
  cbv iota beta.
  rewrite Z.shiftl_mul_pow2 by lia.
  rewrite (Z.mul_comm (Z.pos m)), div_eucl_mul by lia.
  assert (new_location (Z.pos m) 0 = loc_Exact) as ->.
  { unfold new_location. by destruct (Z.even (Z.pos m)). }
  by vm_compute.
Qed.

(** X12. With at least one true positive and neither false positives nor
    false negatives, precision, recall and F1 are reported as exactly
    1.0. *)
Theorem perfect_corpus_gives_unit_metrics (total_tp : Z) :
  0 < total_tp →
  micro_average total_tp 0 0
  = Overall total_tp 0 0 float_one float_one float_one.
Proof.
  intros Htp. unfold micro_average.
  replace (total_tp + 0) with total_tp by lia.
  destruct (Z.ltb_spec 0 total_tp); [|lia].
  destruct total_tp as [|m|m]; [lia| |lia].
  rewrite truediv_self. by vm_compute.
Qed.

Lemma perfect_corpus_gives_unit_metrics_witness :
  micro_average 7 0 0 = Overall 7 0 0 float_one float_one float_one.
Proof. apply (perfect_corpus_gives_unit_metrics 7). lia. Defined.

Lemma dict_set_fresh {V : Type} (k : string) (v : V) (d : list (string * V)) :
  k ∉ d.*1 → dict_set k v d = d ++ [(k, v)].
Proof.
  induction d as [|[k' v'] d IH]; [done|]. cbn. intros Hk.
  apply not_elem_of_cons in Hk as [Hne Hk].
  rewrite bool_decide_eq_false_2 by congruence. by rewrite IH.
Qed.

Lemma per_file_entries_keys (w : world) (pdf_dir ground_truth_dir : string)
    (pdf_files : list string) (k : string) :
  k ∈ (omap (per_file_entry w pdf_dir ground_truth_dir) pdf_files).*1 →
  k ∈ pdf_files.
Proof.
  intros Hk. apply list_elem_of_fmap in Hk as ([k' m] & -> & Hin).
  apply list_elem_of_omap in Hin as (f & Hf & Hentry).
  unfold per_file_entry in Hentry.
  destruct (scored w pdf_dir ground_truth_dir f); [|done].
  by injection Hentry as <- <-.
Qed.

Lemma per_file_entries_values (w : world) (pdf_dir ground_truth_dir : string)
    (pdf_files : list string) :
  (omap (per_file_entry w pdf_dir ground_truth_dir) pdf_files).*2
  = omap (scored w pdf_dir ground_truth_dir) pdf_files.
Proof.
  induction pdf_files as [|f pdf_files IH]; [done|].
  rewrite !omap_cons.
  destruct (scored w pdf_dir ground_truth_dir f) as [m|] eqn:Hs.
  - assert (per_file_entry w pdf_dir ground_truth_dir f = Some (f, m)) as ->
      by (unfold per_file_entry; by rewrite Hs).
    cbn. by rewrite IH.
  - assert (per_file_entry w pdf_dir ground_truth_dir f = None) as ->
      by (unfold per_file_entry; by rewrite Hs).
    done.
Qed.

Lemma evaluate_loop_per_file (w : world) (pdf_dir ground_truth_dir : string)
    (pdf_files : list string) (acc : totals) :
  NoDup pdf_files →
  (∀ k, k ∈ (per_file acc).*1 → k ∉ pdf_files) →
  per_file (evaluate_loop w pdf_dir ground_truth_dir pdf_files acc)
  = per_file acc ++ omap (per_file_entry w pdf_dir ground_truth_dir) pdf_files.
Proof.
  revert acc. induction pdf_files as [|f pdf_files IH]; intros acc Hnd Hfresh.
  - cbn. by rewrite app_nil_r.
  - apply NoDup_cons in Hnd as [Hf Hnd].
    unfold evaluate_loop in *. cbn [foldl]. rewrite omap_cons.
    destruct (scored w pdf_dir ground_truth_dir f) as [m|] eqn:Hs.
    + assert (per_file_entry w pdf_dir ground_truth_dir f = Some (f, m)) as ->
        by (unfold per_file_entry; by rewrite Hs).
      destruct (evaluate_file_scored w pdf_dir ground_truth_dir f acc m Hs)
        as (_ & _ & _ & Hper & _).
      assert (Hnew : f ∉ (per_file acc).*1).
      { intros Hin. apply (Hfresh f Hin). by left. }
      rewrite IH; [|done|].
      * rewrite Hper, dict_set_fresh by done. rewrite <- app_assoc.
        reflexivity.
      * intros k. rewrite Hper, dict_set_fresh by done.
        rewrite fmap_app, elem_of_app. cbn.
        intros [Hk|Hk] Hin.
        -- apply (Hfresh k Hk). by right.
        -- apply list_elem_of_singleton in Hk as ->. done.
    + assert (per_file_entry w pdf_dir ground_truth_dir f = None) as ->
        by (unfold per_file_entry; by rewrite Hs).
      destruct (evaluate_file_skipped w pdf_dir ground_truth_dir f acc Hs)
        as (_ & _ & _ & Hper).
      rewrite IH; [by rewrite Hper|done|].
      intros k. rewrite Hper. intros Hk Hin. apply (Hfresh k Hk). by right.
Qed.

(** X13. For a list of distinct file names the per-file results hold, in
    the order of the list, one entry for each file that has a ground
    truth, carrying that file's counts; the keys are distinct, and the
    three corpus totals are the sums of the per-file counts reported
    beside them. *)
Theorem per_file_results_of_distinct_files (w : world)
    (pdf_dir ground_truth_dir : string) (pdf_files : list string) :
  NoDup pdf_files →
  let result := (evaluate_files w pdf_dir ground_truth_dir pdf_files).2 in
  per_file_results result
  = omap (per_file_entry w pdf_dir ground_truth_dir) pdf_files
  ∧ NoDup (per_file_results result).*1
  ∧ total_true_positives (overall_metrics result)
    = sum_with tp (per_file_results result).*2
  ∧ total_false_positives (overall_metrics result)
    = sum_with fp (per_file_results result).*2
  ∧ total_false_negatives (overall_metrics result)
    = sum_with fn (per_file_results result).*2.
Proof.
  intros Hnd result.
  assert (Hper : per_file_results result
                 = omap (per_file_entry w pdf_dir ground_truth_dir) pdf_files).
  { subst result. unfold evaluate_files. cbn [snd per_file_results].
    rewrite evaluate_loop_per_file; [done|done|].
    intros k Hk. by apply elem_of_nil in Hk. }
  split; [done|]. split.
  - rewrite Hper. clear Hper result.
    induction pdf_files as [|f pdf_files IH]; [constructor|].
    apply NoDup_cons in Hnd as [Hf Hnd]. rewrite omap_cons.
    destruct (per_file_entry w pdf_dir ground_truth_dir f) as [[k m]|] eqn:He;
      [|by apply IH].
    unfold per_file_entry in He.
    destruct (scored w pdf_dir ground_truth_dir f); [|done].
    injection He as <- <-.
    cbn. apply NoDup_cons. split; [|by apply IH].
    intros Hin. by apply per_file_entries_keys in Hin.
  - rewrite Hper, per_file_entries_values. subst result.
    rewrite evaluate_files_totals. done.
Qed.

Lemma per_file_results_of_distinct_files_witness :
  per_file_results
    (evaluate_files sample_world "pdfs" "truth" ["a.pdf"; "b.pdf"; "c.PDF"]).2
  = omap (per_file_entry sample_world "pdfs" "truth")
         ["a.pdf"; "b.pdf"; "c.PDF"].
Proof.
  apply (per_file_results_of_distinct_files sample_world "pdfs" "truth"
           ["a.pdf"; "b.pdf"; "c.PDF"]).
  apply (bool_decide_unpack _). by vm_compute.
Defined.

Lemma filter_filter_same {A : Type} (P : A → Prop) `{!∀ x, Decision (P x)}
    (l : list A) :
  filter P (filter P l) = filter P l.
Proof.
  apply filter_keep_all, Forall_forall. intros x Hx.
  apply list_elem_of_filter in Hx. tauto.
Qed.

(** X14. Only the names ending in ".pdf", in any case, take part in a
    corpus evaluation: the empty dictionary is returned exactly when the
    directory holds no such name, and a directory listing reduced to
    these names gives the same output and the same report. *)
Theorem only_pdf_names_are_evaluated (w : world)
    (pdf_dir ground_truth_dir : string) :
  ((evaluate_parser_accuracy w pdf_dir ground_truth_dir).2 = None
   ↔ Forall (λ f, is_pdf_name f = false) (os_listdir w pdf_dir))
  ∧ evaluate_parser_accuracy
      (with_listdir w (λ dir, filter (λ f, is_pdf_name f = true)
                                     (os_listdir w dir)))
      pdf_dir ground_truth_dir
    = evaluate_parser_accuracy w pdf_dir ground_truth_dir.
Proof.
  split.
  - unfold evaluate_parser_accuracy.
    assert (Hnil : filter (λ f, is_pdf_name f = true) (os_listdir w pdf_dir) = []
                   ↔ Forall (λ f, is_pdf_name f = false) (os_listdir w pdf_dir)).
    { induction (os_listdir w pdf_dir) as [|f l IH]; [by split; [constructor|]|].
      rewrite filter_cons. destruct (is_pdf_name f) eqn:Hf.
      - rewrite decide_True by done. split; [done|].
        intros Hall. inversion Hall; congruence.
      - rewrite decide_False by congruence. rewrite IH.
        split; [by constructor|]. intros Hall. by inversion Hall. }
    rewrite <- Hnil.
    destruct (filter _ (os_listdir w pdf_dir)) as [|f files]; [done|].
    destruct (evaluate_files w pdf_dir ground_truth_dir (f :: files)).
    done.
  - unfold evaluate_parser_accuracy. cbn [os_listdir with_listdir].
    rewrite (filter_filter_same (λ f, is_pdf_name f = true)).
    done.
Qed.

Example only_pdf_names_are_evaluated_sample :
  filter (λ f, is_pdf_name f = true) (os_listdir sample_world "pdfs")
  = ["a.pdf"; "b.pdf"; "c.PDF"]
  ∧ (evaluate_parser_accuracy sample_world "empty" "truth").2 = None.
Proof. by vm_compute. Qed.

Lemma scored_has_ground_truth (w : world) (pdf_dir ground_truth_dir f : string) :
  has_ground_truth w ground_truth_dir f
  ↔ is_Some (scored w pdf_dir ground_truth_dir f).
Proof.
  unfold has_ground_truth, scored.
  destruct (os_path_exists w _); split; (done || by intros [??]).
Qed.

Lemma omap_scored_filter (w : world) (pdf_dir ground_truth_dir : string)
    (pdf_files : list string) :
  omap (scored w pdf_dir ground_truth_dir)
       (filter (has_ground_truth w ground_truth_dir) pdf_files)
  = omap (scored w pdf_dir ground_truth_dir) pdf_files.
Proof.
  induction pdf_files as [|f pdf_files IH]; [done|].
  rewrite filter_cons, (omap_cons _ f pdf_files).
  destruct (decide (has_ground_truth w ground_truth_dir f)) as [Hf|Hf].
  - by rewrite omap_cons, IH.
  - rewrite IH.
    destruct (scored w pdf_dir ground_truth_dir f) eqn:Hs; [|done].
    destruct Hf. apply (scored_has_ground_truth w pdf_dir). by rewrite Hs.
Qed.

Lemma evaluate_loop_per_file_filter (w : world)
    (pdf_dir ground_truth_dir : string) (pdf_files : list string)
    (acc acc' : totals) :
  per_file acc = per_file acc' →
  per_file (evaluate_loop w pdf_dir ground_truth_dir pdf_files acc)
  = per_file (evaluate_loop w pdf_dir ground_truth_dir
                (filter (has_ground_truth w ground_truth_dir) pdf_files) acc').
Proof.
  revert acc acc'. induction pdf_files as [|f pdf_files IH];
    intros acc acc' Hacc; [done|].
  rewrite filter_cons. unfold evaluate_loop in *. cbn [foldl].
  destruct (decide (has_ground_truth w ground_truth_dir f)) as [Hf|Hf].
  - cbn [foldl]. apply IH.
    apply (scored_has_ground_truth w pdf_dir) in Hf as [m Hm].
    destruct (evaluate_file_scored w pdf_dir ground_truth_dir f acc m Hm)
      as (_ & _ & _ & -> & _).
    destruct (evaluate_file_scored w pdf_dir ground_truth_dir f acc' m Hm)
      as (_ & _ & _ & -> & _).
    by rewrite Hacc.
  - apply IH.
    assert (Hs : scored w pdf_dir ground_truth_dir f = None).
    { destruct (scored w pdf_dir ground_truth_dir f) eqn:Hs; [|done].
      destruct Hf. apply (scored_has_ground_truth w pdf_dir). by rewrite Hs. }
    destruct (evaluate_file_skipped w pdf_dir ground_truth_dir f acc Hs)
      as (_ & _ & _ & ->).
    done.
Qed.

(** X15. A PDF file without a ground-truth file is skipped: the loop
    leaves the three totals and the per-file results as they are and only
    prints a warning naming the file; so the report of a corpus is the
    report of its files that have a ground truth. *)
Theorem files_without_ground_truth_are_skipped (w : world)
    (pdf_dir ground_truth_dir : string) (pdf_files : list string) :
  (∀ f acc, ¬ has_ground_truth w ground_truth_dir f →
     evaluate_file w pdf_dir ground_truth_dir f acc
     = Totals (total_tp acc) (total_fp acc) (total_fn acc) (per_file acc)
         (printed acc ++ ["Warning: No matching ground truth for '" +:+ f
                          +:+ "'. Skipping."]))
  ∧ (evaluate_files w pdf_dir ground_truth_dir pdf_files).2
    = (evaluate_files w pdf_dir ground_truth_dir
         (filter (has_ground_truth w ground_truth_dir) pdf_files)).2.
Proof.
  split.
  - intros f acc Hf. unfold evaluate_file, has_ground_truth, json_path_of in *.
    destruct (os_path_exists w _); [by destruct Hf|done].
  - unfold evaluate_files. cbn [snd].
    destruct (evaluate_loop_totals w pdf_dir ground_truth_dir pdf_files
                (Totals 0 0 0 [] [])) as (-> & -> & ->).
    destruct (evaluate_loop_totals w pdf_dir ground_truth_dir
                (filter (has_ground_truth w ground_truth_dir) pdf_files)
                (Totals 0 0 0 [] [])) as (-> & -> & ->).
    rewrite omap_scored_filter.
    by rewrite (evaluate_loop_per_file_filter w pdf_dir ground_truth_dir
                  pdf_files (Totals 0 0 0 [] []) (Totals 0 0 0 [] [])).
Qed.

Example files_without_ground_truth_sample :
  filter (has_ground_truth sample_world "truth") ["a.pdf"; "b.pdf"; "c.PDF"]
  = ["a.pdf"; "b.pdf"]
  ∧ printed (evaluate_file sample_world "pdfs" "truth" "c.PDF"
               (Totals 0 0 0 [] []))
    = ["Warning: No matching ground truth for 'c.PDF'. Skipping."].
Proof. by vm_compute. Qed.

Lemma nearest_even_nonneg (n e : Z) : 0 ≤ n → 0 ≤ Float.nearest_even n e.
Proof.
  intros Hn. unfold Float.nearest_even.
  destruct (0 <=? e) eqn:He.
  - apply Z.leb_le in He. apply Z.mul_nonneg_nonneg; [done|].
    by apply Z.pow_nonneg.
  - apply Z.leb_gt in He.
    assert (Hd : 0 < 2 ^ (- e)) by (apply Z.pow_pos_nonneg; lia).
    pose proof (Z.div_pos n (2 ^ (- e)) Hn Hd) as Hq.
    destruct (2 * (n mod 2 ^ (- e)) ?= 2 ^ (- e)); [|done|lia].
    destruct (Z.even (n / 2 ^ (- e))); lia.
Qed.

Lemma round4_nonneg (x : spec_float) :
  nonneg_float x → nonneg_float (Float.round4 x).
Proof.
  destruct x as [[]|[]| |[] m e]; try done. intros _. cbn [Float.round4].
  apply truediv_nonneg; [|done].
  apply nearest_even_nonneg. lia.
Qed.

(** X16. For every corpus the reported precision and recall are +0.0, a
    positive float or +inf: they are never NaN and never negative. *)
Theorem reported_precision_recall_are_not_nan (w : world)
    (pdf_dir ground_truth_dir : string) (pdf_files : list string) :
  let result :=
    overall_metrics (evaluate_files w pdf_dir ground_truth_dir pdf_files).2 in
  nonneg_float (precision result) ∧ nonneg_float (recall result)
  ∧ precision result ≠ S754_nan ∧ recall result ≠ S754_nan.
Proof.
  intros result. subst result. rewrite evaluate_files_totals.
  rewrite micro_average_guarded by (apply scored_records_nonneg; auto).
  cbn [precision recall].
  assert (Hp : nonneg_float
                 (Float.round4
                    (guarded_precision
                       (sum_with tp (omap (scored w pdf_dir ground_truth_dir)
                                          pdf_files))
                       (sum_with fp (omap (scored w pdf_dir ground_truth_dir)
                                          pdf_files)))))
    by (apply round4_nonneg, guarded_precision_nonneg;
        apply scored_records_nonneg; auto).
  assert (Hr : nonneg_float
                 (Float.round4
                    (guarded_recall
                       (sum_with tp (omap (scored w pdf_dir ground_truth_dir)
                                          pdf_files))
                       (sum_with fn (omap (scored w pdf_dir ground_truth_dir)
                                          pdf_files)))))
    by (apply round4_nonneg, guarded_precision_nonneg;
        apply scored_records_nonneg; auto).
  split; [done|]. split; [done|].
  split; intros Hnan; [rewrite Hnan in Hp|rewrite Hnan in Hr]; done.
Qed.
